(** * The EURES crawler core (main.py): credential store, session acquirer,
      API client with refresh-on-403, ingestion pipeline and listing repository.

    The Python functions of main.py are embedded as Rocq functions over an
    explicit [World]: the scripted upstream HTTP service, the scripted
    browser, the two credential files, the [jobs] relation and a trace of
    the observable actions. Exceptions are values; a raised exception keeps
    the world it was raised in. *)

From Stdlib Require Import ZArith List String Ascii Bool Lia QArith Qround.
From Stdlib Require Import Floats DecimalString.
Import ListNotations.

Set Warnings "-register-all".
Local Open Scope string_scope.
Local Open Scope list_scope.
Local Open Scope Z_scope.

(* ===================================================================== *)
(** ** Python values and exceptions *)
(* ===================================================================== *)

Module Py.

(** The exceptions the modelled code can meet. [RuntimeError] carries its
    message; [BindingError] is sqlite3's refusal to bind a list or a dict. *)
Inductive exn :=
| AttributeError
| TypeError
| KeyError
| JSONDecodeError
| RuntimeError (msg : string)
| ConnectionError
| WebDriverException
| BindingError
| OverflowError
| InvalidHeader
| ValueError
| OSError
| RecursionError.

(** A pure computation that may raise. *)
Inductive result (A : Type) :=
| Ok (a : A)
| Err (e : exn).
Arguments Ok {A} a.
Arguments Err {A} e.

Definition rbind {A B} (r : result A) (k : A -> result B) : result B :=
  match r with
  | Ok a => k a
  | Err e => Err e
  end.

(** [try: body except Exception: handler]. *)
Definition try_except {A} (body : result A) (handler : exn -> result A) : result A :=
  match body with
  | Ok a => Ok a
  | Err e => handler e
  end.

End Py.
Import Py.

(* ===================================================================== *)
(** ** JSON documents, as [json.loads] / [response.json()] deliver them *)
(* ===================================================================== *)

Module Json.

(** A parsed JSON document is a Python value: [JNull] is [None], [JObj] is a
    [dict] given by its items in insertion order (keys are distinct, as in any
    dict the parser builds), [JInt] is an unbounded [int] and [JFloat] a
    binary64 [float]. A string is the sequence of its code points, each below
    256. *)
Inductive json :=
| JNull
| JBool (b : bool)
| JInt (n : Z)
| JFloat (f : float)
| JStr (s : string)
| JArr (items : list json)
| JObj (members : list (string * json)).

Fixpoint assoc (k : string) (m : list (string * json)) : option json :=
  match m with
  | [] => None
  | (k', v) :: m' => if String.eqb k k' then Some v else assoc k m'
  end.

(** [d.get(k, default)]: only a dict has [.get]. *)
Definition get (d : json) (k : string) (default : json) : result json :=
  match d with
  | JObj m => Ok (match assoc k m with Some v => v | None => default end)
  | _ => Err AttributeError
  end.

(** [d[k]] with a string key. *)
Definition subscript (d : json) (k : string) : result json :=
  match d with
  | JObj m => match assoc k m with Some v => Ok v | None => Err KeyError end
  | _ => Err TypeError
  end.

(** Python truthiness, [bool(v)]. *)
Definition truthy (v : json) : bool :=
  match v with
  | JNull => false
  | JBool b => b
  | JInt n => negb (n =? 0)
  | JFloat f => negb (PrimFloat.eqb f 0%float)
  | JStr s => negb (String.eqb s "")
  | JArr l => match l with [] => false | _ => true end
  | JObj m => match m with [] => false | _ => true end
  end.

(** [v == s] for a string [s]. *)
Definition is_str (s : string) (v : json) : bool :=
  match v with
  | JStr t => String.eqb s t
  | _ => false
  end.

Fixpoint chars (s : string) : list json :=
  match s with
  | EmptyString => []
  | String c t => JStr (String c EmptyString) :: chars t
  end.

(** The items a [for x in v] loop visits; a dict yields its keys, a string
    its characters, anything else is not iterable. *)
Definition iter (v : json) : result (list json) :=
  match v with
  | JArr l => Ok l
  | JObj m => Ok (map (fun kv => JStr (fst kv)) m)
  | JStr s => Ok (chars s)
  | _ => Err TypeError
  end.

End Json.
Import Json.

(* ===================================================================== *)
(** ** String operations used by the source *)
(* ===================================================================== *)

Module Text.

(** [rest] when [s = p ++ rest]. *)
Fixpoint drop_prefix (p s : string) : option string :=
  match p with
  | EmptyString => Some s
  | String a p' =>
      match s with
      | EmptyString => None
      | String b s' => if Ascii.eqb a b then drop_prefix p' s' else None
      end
  end.

(** [needle in s]. *)
Fixpoint contains (needle s : string) : bool :=
  match drop_prefix needle s with
  | Some _ => true
  | None =>
      match s with
      | EmptyString => false
      | String _ t => contains needle t
      end
  end.

(** The longest prefix free of [;], what the greedy class [[^;]+] consumes. *)
Fixpoint take_value (s : string) : string :=
  match s with
  | EmptyString => EmptyString
  | String c t => if Ascii.eqb c ";" then EmptyString else String c (take_value t)
  end.

(** [re.search(name + "([^;]+)", s)]: group 1 of the leftmost match, [None]
    when no occurrence of [name] is followed by a character other than [;].
    Neither cookie name holds a regular-expression metacharacter. *)
Fixpoint re_search (name s : string) : option string :=
  let here :=
    match drop_prefix name s with
    | Some rest =>
        match take_value rest with
        | EmptyString => None
        | v => Some v
        end
    | None => None
    end in
  match here with
  | Some v => Some v
  | None =>
      match s with
      | EmptyString => None
      | String _ t => re_search name t
      end
  end.

(** [s.split("\n")]. *)
Fixpoint split_lines (s : string) : list string :=
  match s with
  | EmptyString => [EmptyString]
  | String c t =>
      if Ascii.eqb c "010" then EmptyString :: split_lines t
      else
        match split_lines t with
        | [] => [String c EmptyString]
        | l :: ls => String c l :: ls
        end
  end.

(** The code points below 256 that [str.isspace] accepts: 9 to 13, 28 to 32,
    133 (next line) and 160 (no-break space). *)
Definition is_space (c : ascii) : bool :=
  let n := nat_of_ascii c in
  ((9 <=? n) && (n <=? 13) || (28 <=? n) && (n <=? 32) || (n =? 133) || (n =? 160))%nat.

Fixpoint lstrip (s : string) : string :=
  match s with
  | EmptyString => EmptyString
  | String c t => if is_space c then lstrip t else s
  end.

(** Removes the trailing characters [str.isspace] accepts. *)
Fixpoint rstrip (s : string) : string :=
  match s with
  | EmptyString => EmptyString
  | String c t =>
      match rstrip t with
      | EmptyString => if is_space c then EmptyString else String c EmptyString
      | kept => String c kept
      end
  end.

(** [s.strip()]. *)
Definition strip (s : string) : string := rstrip (lstrip s).

Definition CR : ascii := "013".
Definition LF : ascii := "010".

(** The string holds a carriage return or a line feed. *)
Fixpoint has_line_break (s : string) : bool :=
  match s with
  | EmptyString => false
  | String c t => Ascii.eqb c CR || Ascii.eqb c LF || has_line_break t
  end.

(** The string holds a carriage return. *)
Fixpoint has_carriage_return (s : string) : bool :=
  match s with
  | EmptyString => false
  | String c t => Ascii.eqb c CR || has_carriage_return t
  end.

(** What reading in text mode makes of the stored characters: a carriage
    return followed by a line feed, and a carriage return alone, are read as
    one line feed each. *)
Fixpoint universal_newlines (s : string) : string :=
  match s with
  | EmptyString => EmptyString
  | String c t =>
      if Ascii.eqb c CR then
        String LF
          match t with
          | EmptyString => EmptyString
          | String c2 t' => if Ascii.eqb c2 LF then universal_newlines t' else universal_newlines t
          end
      else String c (universal_newlines t)
  end.

End Text.
Import Text.

(* ===================================================================== *)
(** ** SessionAcquirer: reading the credential out of the performance log *)
(* ===================================================================== *)

Module Acquirer.

(** One captured log entry, seen through [json.loads(entry["message"])]:
    [None] when the entry has no such key or its text is not JSON. *)
Definition log_entry := option json.

(** The loop variables [(session_id, xsrf_token)]. *)
Definition found := (option string * option string)%type.

Definition SESSION_NAME := "EURES_JVSE_SESSIONID=".
Definition XSRF_NAME := "XSRF-TOKEN=".
Definition EXTRA_INFO := "Network.responseReceivedExtraInfo".

(** [needle in c]: substring of a string, element of a list, key of a dict. *)
Definition py_in (needle : string) (c : json) : result bool :=
  match c with
  | JStr s => Ok (contains needle s)
  | JArr l => Ok (existsb (is_str needle) l)
  | JObj m => Ok (existsb (fun kv => String.eqb needle (fst kv)) m)
  | _ => Err TypeError
  end.

(** [re.search(name + "([^;]+)", c).group(1)]. *)
Definition re_group1 (name : string) (c : json) : result string :=
  match c with
  | JStr s =>
      match re_search name s with
      | Some v => Ok v
      | None => Err AttributeError
      end
  | _ => Err TypeError
  end.

(** The body of [for c in cookies]: the assignments made before an
    exception stay made; the flag tells whether the body completed. *)
Definition scan_cookie (c : json) (st : found) : found * bool :=
  match py_in SESSION_NAME c with
  | Err _ => (st, false)
  | Ok has_session =>
      let after_session :=
        if has_session then
          match re_group1 SESSION_NAME c with
          | Ok v => Ok (Some v, snd st)
          | Err e => Err e
          end
        else Ok st in
      match after_session with
      | Err _ => (st, false)
      | Ok st1 =>
          match py_in XSRF_NAME c with
          | Err _ => (st1, false)
          | Ok has_xsrf =>
              if has_xsrf then
                match re_group1 XSRF_NAME c with
                | Ok v => ((fst st1, Some v), true)
                | Err _ => (st1, false)
                end
              else (st1, true)
          end
      end
  end.

Fixpoint scan_cookies (cs : list json) (st : found) : found * bool :=
  match cs with
  | [] => (st, true)
  | c :: cs' =>
      let '(st', completed) := scan_cookie c st in
      if completed then scan_cookies cs' st' else (st', false)
  end.

(** The statements of the [try] block up to the inner loop: [Ok None] is a
    [continue], [Ok (Some cookies)] the list the inner loop walks, [Err] an
    exception for the [except] clause. *)
Definition entry_cookies (doc : json) : result (option (list json)) :=
  rbind (subscript doc "message") (fun msg =>
  rbind (get msg "method" JNull) (fun method =>
  if negb (is_str EXTRA_INFO method) then Ok None else
  rbind (get msg "params" (JObj [])) (fun params =>
  rbind (get params "headers" (JObj [])) (fun headers =>
  rbind (get headers "Set-Cookie" JNull) (fun set_cookie =>
  if negb (truthy set_cookie) then Ok None else
  rbind (match set_cookie with
         | JStr s => Ok (map JStr (split_lines s))
         | other => iter other
         end) (fun cookies =>
  Ok (Some cookies))))))).

(** One iteration of [for entry in logs]; the flag tells whether control
    reached the [if session_id and xsrf_token] test. *)
Definition scan_entry (e : log_entry) (st : found) : found * bool :=
  match e with
  | None => (st, false)
  | Some doc =>
      match entry_cookies doc with
      | Ok (Some cookies) => scan_cookies cookies st
      | Ok None => (st, false)
      | Err _ => (st, false)
      end
  end.

Definition truthy_str (o : option string) : bool :=
  match o with
  | Some s => negb (String.eqb s "")
  | None => false
  end.

Definition both (st : found) : bool := truthy_str (fst st) && truthy_str (snd st).

Fixpoint scan_logs (logs : list log_entry) (st : found) : found :=
  match logs with
  | [] => st
  | e :: rest =>
      let '(st', tested) := scan_entry e st in
      if tested && both st' then st' else scan_logs rest st'
  end.

Definition NOT_FOUND := RuntimeError "Required cookies not found".

Definition extract_cookies_from_logs (logs : list log_entry) : result (string * string) :=
  match scan_logs logs (None, None) with
  | (Some session_id, Some xsrf_token) =>
      if both (Some session_id, Some xsrf_token)
      then Ok ((SESSION_NAME ++ session_id)%string, xsrf_token)
      else Err NOT_FOUND
  | _ => Err NOT_FOUND
  end.

(** A well-formed [responseReceivedExtraInfo] entry whose [Set-Cookie]
    header is [v]. *)
Definition set_cookie_entry (v : json) : log_entry :=
  Some (JObj [("message",
    JObj [("method", JStr EXTRA_INFO);
          ("params", JObj [("headers", JObj [("Set-Cookie", v)])])])]).

End Acquirer.
Import Acquirer.

(* ===================================================================== *)
(** ** ListingRepository: the [jobs] relation *)
(* ===================================================================== *)

Module Repo.

(** The values sqlite3 binds for Python's [None], [int], [float], [str]. *)
Inductive sqlval :=
| SNull
| SInteger (n : Z)
| SReal (f : float)
| SText (s : string).

(** A TEXT column written through [json.dumps], kept as the document that was
    serialised ([JNull] is the text [null]). *)
Definition dumped := json.

Definition json_dumps (doc : json) : dumped := doc.

(** One stored row of [jobs], columns in the order of the INSERT statement,
    each holding the value the engine keeps for it. In a row the engine
    wrote, [id], a TEXT column, holds NULL or a text. *)
Record Row := mkRow {
  id : sqlval;
  creationDate : sqlval;
  lastModificationDate : sqlval;
  title : sqlval;
  description : sqlval;
  numberOfPosts : sqlval;
  locationMap : dumped;
  euresFlag : sqlval;
  jobCategoriesCodes : dumped;
  positionScheduleCodes : dumped;
  positionOfferingCode : sqlval;
  employer : dumped;
  availableLanguages : dumped;
  score : sqlval;
  details : dumped
}.

(** How sqlite3 adapts one Python parameter: [bool] is an [int], an [int]
    must fit 64 signed bits, a NaN is bound as NULL, a list or a dict is
    refused. *)
Definition bind_param (v : json) : result sqlval :=
  match v with
  | JNull => Ok SNull
  | JBool b => Ok (SInteger (Z.b2z b))
  | JInt n =>
      if (- 2 ^ 63 <=? n) && (n <? 2 ^ 63) then Ok (SInteger n) else Err OverflowError
  | JFloat f => if PrimFloat.is_nan f then Ok SNull else Ok (SReal f)
  | JStr s => Ok (SText s)
  | JArr _ => Err BindingError
  | JObj _ => Err BindingError
  end.

(** What is left to the database engine: how it writes a REAL as text, and
    what it makes of a value put in a column declared INTEGER or REAL. *)
Record Engine := mkEngine {
  real_text : float -> string;
  integer_affinity : sqlval -> sqlval;
  real_affinity : sqlval -> sqlval
}.

(** The decimal numeral of an integer. *)
Definition decimal (n : Z) : string := NilZero.string_of_int (Z.to_int n).

(** A value put in a column declared TEXT: numbers are kept as their text. *)
Definition text_affinity (eng : Engine) (v : sqlval) : sqlval :=
  match v with
  | SInteger n => SText (decimal n)
  | SReal f => SText (real_text eng f)
  | other => other
  end.

(** Equality of two stored values. *)
Definition sql_eqb (a b : sqlval) : bool :=
  match a, b with
  | SInteger m, SInteger n => m =? n
  | SReal f, SReal g => PrimFloat.Leibniz.eqb f g
  | SText s, SText t => String.eqb s t
  | _, _ => false
  end.

(** Two stored rows collide on the primary key when their ids are equal and
    not NULL (in SQLite a NULL in a TEXT PRIMARY KEY collides with nothing). *)
Definition collides (r old : Row) : bool := sql_eqb (id r) (id old).

(** [INSERT OR REPLACE INTO jobs (...) VALUES (...)]: the colliding rows are
    deleted, then the new row is inserted whole. *)
Definition insert_or_replace (r : Row) (t : list Row) : list Row :=
  filter (fun old => negb (collides r old)) t ++ [r].

(** The rows of [t] stored under the key [k]. *)
Definition rows_with_id (k : sqlval) (t : list Row) : list Row :=
  filter (fun r => sql_eqb k (id r)) t.

End Repo.
Import Repo.

(* ===================================================================== *)
(** ** The world the crawler runs in, and the monad of its effects *)
(* ===================================================================== *)

Module Effects.

(** An HTTP response: its status and what [response.json()] gives ([None]
    when the body is not JSON and [.json()] raises). *)
Record Response := mkResponse {
  status : Z;
  body : option json
}.

(** [response.ok]: the status is not in 400..599. *)
Definition ok (r : Response) : bool :=
  negb ((400 <=? status r) && (status r <? 600)).

(** A file on disk: absent, present but unusable (unreadable, undecodable or,
    for the cookie file, not JSON), or holding a content. *)
Inductive file (A : Type) :=
| Missing
| Corrupt
| Holds (content : A).
Arguments Missing {A}.
Arguments Corrupt {A}.
Arguments Holds {A} content.

Inductive Event :=
| EvPost (page : Z) (cookie xsrf_token : string)
| EvGet (job_id : json) (cookie xsrf_token : string)
| EvAcquire
| EvQuit
| EvSaveCookie (content : json)
| EvSaveXsrf (content : string)
| EvUpsert (r : Row)
| EvCommit
| EvSleep (seconds : Z).

(** [upstream]: the responses the remote API will give, in order (none left:
    the request fails with a connection error). [browser]: the performance
    log each future browser session will capture (none left: the driver
    cannot start). [cookie_file] holds the parsed JSON document of
    cookiefile.json, [xsrf_file] the characters stored in xsrf_token.txt (on
    a system whose line separator is the line feed). [table] is the [jobs]
    relation as the connection sees it, [durable] what has been committed.
    [trace] lists the actions taken, oldest first. [engine] is the database
    engine at work. *)
Record World := mkWorld {
  upstream : list Response;
  browser : list (list log_entry);
  cookie_file : file json;
  xsrf_file : file string;
  table : list Row;
  durable : list Row;
  trace : list Event;
  engine : Engine
}.

Definition log (ev : Event) (w : World) : World :=
  mkWorld (upstream w) (browser w) (cookie_file w) (xsrf_file w)
          (table w) (durable w) (trace w ++ [ev]) (engine w).

Definition set_upstream (u : list Response) (w : World) : World :=
  mkWorld u (browser w) (cookie_file w) (xsrf_file w) (table w) (durable w) (trace w)
          (engine w).

Definition set_browser (b : list (list log_entry)) (w : World) : World :=
  mkWorld (upstream w) b (cookie_file w) (xsrf_file w) (table w) (durable w) (trace w)
          (engine w).

Definition set_cookie_file (f : file json) (w : World) : World :=
  mkWorld (upstream w) (browser w) f (xsrf_file w) (table w) (durable w) (trace w)
          (engine w).

Definition set_xsrf_file (f : file string) (w : World) : World :=
  mkWorld (upstream w) (browser w) (cookie_file w) f (table w) (durable w) (trace w)
          (engine w).

Definition set_table (t : list Row) (w : World) : World :=
  mkWorld (upstream w) (browser w) (cookie_file w) (xsrf_file w) t (durable w) (trace w)
          (engine w).

Definition set_durable (t : list Row) (w : World) : World :=
  mkWorld (upstream w) (browser w) (cookie_file w) (xsrf_file w) (table w) t (trace w)
          (engine w).

(** What a call leaves: a value or a raised exception, and the world after. *)
Inductive outcome (A : Type) :=
| Returns (a : A) (w : World)
| Raises (e : exn) (w : World).
Arguments Returns {A} a w.
Arguments Raises {A} e w.

Definition M (A : Type) := World -> outcome A.

Definition ret {A} (a : A) : M A := fun w => Returns a w.

Definition raise {A} (e : exn) : M A := fun w => Raises e w.

Definition bind {A B} (m : M A) (k : A -> M B) : M B := fun w =>
  match m w with
  | Returns a w' => k a w'
  | Raises e w' => Raises e w'
  end.

Definition lift {A} (r : result A) : M A :=
  match r with
  | Ok a => ret a
  | Err e => raise e
  end.

Definition emit (ev : Event) : M unit := fun w => Returns tt (log ev w).

(** A [for] loop whose body updates the loop-carried variables [s]. *)
Fixpoint for_each {A S} (xs : list A) (body : A -> S -> M S) (s : S) : M S :=
  match xs with
  | [] => ret s
  | x :: xs' => bind (body x s) (for_each xs' body)
  end.

Definition world_of {A} (o : outcome A) : World :=
  match o with
  | Returns _ w => w
  | Raises _ w => w
  end.

(** Counting the actions of one kind in a trace. *)
Definition count (p : Event -> bool) (tr : list Event) : nat := List.length (filter p tr).

Definition is_post (ev : Event) : bool := match ev with EvPost _ _ _ => true | _ => false end.
Definition is_get (ev : Event) : bool := match ev with EvGet _ _ _ => true | _ => false end.
Definition is_acquire (ev : Event) : bool := match ev with EvAcquire => true | _ => false end.
Definition is_upsert (ev : Event) : bool := match ev with EvUpsert _ => true | _ => false end.
Definition is_commit (ev : Event) : bool := match ev with EvCommit => true | _ => false end.
Definition is_save (ev : Event) : bool :=
  match ev with
  | EvSaveCookie _ => true
  | EvSaveXsrf _ => true
  | _ => false
  end.

End Effects.
Import Effects.

Notation "x <- m ;; k" := (bind m (fun x => k))
  (at level 61, m at next level, right associativity).
Notation "' pat <- m ;; k" := (bind m (fun x => match x with pat => k end))
  (at level 61, pat pattern, m at next level, right associativity).
Notation "m ;;; k" := (bind m (fun _ => k))
  (at level 61, right associativity).

(* ===================================================================== *)
(** ** CredentialStore: cookiefile.json and xsrf_token.txt *)
(* ===================================================================== *)

Module Store.

(** [Path.exists()]. *)
Definition file_exists {A} (f : file A) : bool :=
  match f with
  | Missing => false
  | _ => true
  end.

(** [json.load(COOKIE_FILE.open("r"))]. *)
Definition json_load (f : file json) : result json :=
  match f with
  | Holds doc => Ok doc
  | Corrupt => Err JSONDecodeError
  | Missing => Err OSError
  end.

(** [XSRF_FILE.read_text()]: text mode, so with universal newlines. *)
Definition read_text (f : file string) : result string :=
  match f with
  | Holds s => Ok (universal_newlines s)
  | Corrupt => Err OSError
  | Missing => Err OSError
  end.

(** Returns the stored ["Cookie"] member, [JNull] standing for [None]. *)
Definition load_stored_cookie : M json := fun w =>
  if file_exists (cookie_file w) then
    lift (try_except
            (rbind (json_load (cookie_file w)) (fun doc => get doc "Cookie" JNull))
            (fun _ => Ok JNull)) w
  else ret JNull w.

Definition save_cookie (cookie_value xsrf_token : string) : M unit := fun w =>
  let cookie_value := (cookie_value ++ "; XSRF-TOKEN=" ++ xsrf_token)%string in
  let doc := JObj [("Cookie", JStr cookie_value)] in
  Returns tt (log (EvSaveCookie doc) (set_cookie_file (Holds doc) w)).

Definition load_xsrf_token : M (option string) := fun w =>
  if file_exists (xsrf_file w) then
    lift (try_except
            (rbind (read_text (xsrf_file w)) (fun s => Ok (Some (strip s))))
            (fun _ => Ok None)) w
  else ret None w.

Definition save_xsrf_token (token : string) : M unit := fun w =>
  let text := strip token in
  Returns tt (log (EvSaveXsrf text) (set_xsrf_file (Holds text) w)).

(** The two writes [reload_cookie] performs to persist a credential. *)
Definition save (cookie_value xsrf_token : string) : M unit :=
  bind (save_cookie cookie_value xsrf_token) (fun _ => save_xsrf_token xsrf_token).

End Store.
Import Store.

(* ===================================================================== *)
(** ** ApiClient: search and detail requests with refresh on 403 *)
(* ===================================================================== *)

Module Client.

(** Launches the browser, waits 7 seconds, reads the performance log and
    extracts the credential; the driver is quit on every path once it has
    started. *)
Definition obtain_cookies_via_selenium : M (string * string) := fun w =>
  match browser w with
  | [] => Raises WebDriverException w
  | logs :: later =>
      let w1 := log (EvSleep 7) (log EvAcquire (set_browser later w)) in
      match extract_cookies_from_logs logs with
      | Ok credential => Returns credential (log EvQuit w1)
      | Err e => Raises e (log EvQuit w1)
      end
  end.

Definition reload_cookie : M (string * string) :=
  ' (cookie_header, xsrf_token) <- obtain_cookies_via_selenium ;;
  save_cookie cookie_header xsrf_token ;;;
  save_xsrf_token xsrf_token ;;;
  ret (cookie_header, xsrf_token).

(** The rest of a header value after its first character, as the pattern
    [[^\r\n]*$] sees it: free of line breaks, but for one final line feed
    ([$] also matches just before it). *)
Fixpoint one_line (t : string) : bool :=
  match t with
  | EmptyString => true
  | String a rest =>
      if Ascii.eqb a LF then String.eqb rest EmptyString
      else if Ascii.eqb a CR then false
      else one_line rest
  end.

(** The check [requests] makes on a header value when it prepares a request,
    matching it against [^\S[^\r\n]*$|^$]. *)
Definition requests_accepts (v : string) : bool :=
  match v with
  | EmptyString => true
  | String c t =>
      if is_space c then String.eqb v (String LF EmptyString) else one_line t
  end.

(** A value both [requests] and, when the headers are written out, the HTTP
    client accept: the latter refuses the line feed the former lets pass. *)
Definition header_ok (v : string) : bool := requests_accepts v && negb (has_line_break v).

(** Whether the [Referer] of a detail request, built from [str(job_id)],
    passes the check: only a string id can bring in a line break, the text of
    any other value has none. *)
Definition referer_ok (job_id : json) : bool :=
  match job_id with
  | JStr s => negb (has_line_break s)
  | _ => true
  end.

(** The headers of a request are checked when it is prepared
    ([InvalidHeader], nothing attempted) and again when they are written on
    the open connection ([ValueError], nothing sent). *)
Definition send (ev : Event) (prepared : bool) (cookie xsrf_token : string) : M Response :=
  fun w =>
  if negb prepared then Raises InvalidHeader w
  else
    match upstream w with
    | [] => Raises ConnectionError (log ev w)
    | r :: later =>
        if has_line_break xsrf_token || has_line_break cookie then Raises ValueError w
        else Returns r (log ev (set_upstream later w))
    end.

(** [requests.post(url, headers=headers, data=payload)]. *)
Definition requests_post (page : Z) (cookie xsrf_token : string) : M Response :=
  send (EvPost page cookie xsrf_token)
       (requests_accepts xsrf_token && requests_accepts cookie) cookie xsrf_token.

(** [requests.get(url, headers=headers)]. *)
Definition requests_get (job_id : json) (cookie xsrf_token : string) : M Response :=
  send (EvGet job_id cookie xsrf_token)
       (requests_accepts xsrf_token && referer_ok job_id && requests_accepts cookie)
       cookie xsrf_token.

(** [response.json()]. *)
Definition response_json (r : Response) : M json :=
  match body r with
  | Some doc => ret doc
  | None => raise JSONDecodeError
  end.

(** [depth] is the number of nested calls the interpreter still allows: the
    function calls itself on every 403. *)
Fixpoint make_api_request (depth : nat) (cookie xsrf_token : string) (page : Z)
  : M (json * string * string) :=
  match depth with
  | O => raise RecursionError
  | S depth' =>
      response <- requests_post page cookie xsrf_token ;;
      if status response =? 403 then
        ' (cookie, xsrf_token) <- reload_cookie ;;
        make_api_request depth' cookie xsrf_token page
      else
        doc <- response_json response ;;
        ret (doc, cookie, xsrf_token)
  end.

(** Returns the detail document, [JNull] standing for [None]. *)
Fixpoint get_job_details (depth : nat) (job_id : json) (cookie xsrf_token : string)
  : M json :=
  match depth with
  | O => raise RecursionError
  | S depth' =>
      response <- requests_get job_id cookie xsrf_token ;;
      if status response =? 403 then
        ' (cookie, xsrf_token) <- reload_cookie ;;
        get_job_details depth' job_id cookie xsrf_token
      else if ok response then response_json response
      else ret JNull
  end.

End Client.
Import Client.

(* ===================================================================== *)
(** ** IngestionPipeline *)
(* ===================================================================== *)

Module Pipeline.

(** [(total + 49) // 50]. *)
Definition total_pages (total : Z) : Z := (total + 49) / 50.

(** The operand of [total + 49] as an integer. A [bool] is an [int]; a
    [float] passes the arithmetic and is refused by [range] with the same
    [TypeError], nothing observable happening in between. *)
Definition as_int (v : json) : result Z :=
  match v with
  | JInt n => Ok n
  | JBool b => Ok (Z.b2z b)
  | _ => Err TypeError
  end.

(** [range(1, n + 1)]. *)
Definition range_from_1 (n : Z) : list Z := map Z.of_nat (seq 1 (Z.to_nat n)).

(** The row the engine keeps for the fifteen bound values, by the declared
    type of each column. *)
Definition stored_row (eng : Engine)
  (c1 c2 c3 c4 c5 c6 : sqlval) (d7 : dumped) (c8 : sqlval) (d9 d10 : dumped) (c11 : sqlval)
  (d12 d13 : dumped) (c14 : sqlval) (d15 : dumped) : Row :=
  mkRow (text_affinity eng c1) (text_affinity eng c2) (text_affinity eng c3)
        (text_affinity eng c4) (text_affinity eng c5) (integer_affinity eng c6)
        d7 (text_affinity eng c8) d9 d10 (text_affinity eng c11) d12 d13
        (real_affinity eng c14) d15.

(** [cursor.execute("INSERT OR REPLACE ...", tuple(job_data.values()))]:
    the parameters are bound in column order, then the row is written, each
    value taking the affinity of its column (the columns written through
    [json.dumps] are text already). *)
Definition execute_insert_or_replace
  (v_id v_creationDate v_lastModificationDate v_title v_description v_numberOfPosts : json)
  (v_locationMap : dumped) (v_euresFlag : json)
  (v_jobCategoriesCodes v_positionScheduleCodes : dumped) (v_positionOfferingCode : json)
  (v_employer v_availableLanguages : dumped) (v_score : json) (v_details : dumped)
  : M unit :=
  c1 <- lift (bind_param v_id) ;;
  c2 <- lift (bind_param v_creationDate) ;;
  c3 <- lift (bind_param v_lastModificationDate) ;;
  c4 <- lift (bind_param v_title) ;;
  c5 <- lift (bind_param v_description) ;;
  c6 <- lift (bind_param v_numberOfPosts) ;;
  c8 <- lift (bind_param v_euresFlag) ;;
  c11 <- lift (bind_param v_positionOfferingCode) ;;
  c14 <- lift (bind_param v_score) ;;
  fun w =>
    let r := stored_row (engine w) c1 c2 c3 c4 c5 c6 v_locationMap c8 v_jobCategoriesCodes
                        v_positionScheduleCodes c11 v_employer v_availableLanguages c14
                        v_details in
    Returns tt (log (EvUpsert r) (set_table (insert_or_replace r (table w)) w)).

(** [conn.commit()]. *)
Definition commit : M unit := fun w =>
  Returns tt (log EvCommit (set_durable (table w) w)).

(** The body of [for job in jobs]. *)
Definition store_job (depth : nat) (cookie xsrf_token : string) (job : json) : M unit :=
  v_id <- lift (get job "id" JNull) ;;
  v_creationDate <- lift (get job "creationDate" JNull) ;;
  v_lastModificationDate <- lift (get job "lastModificationDate" JNull) ;;
  v_title <- lift (get job "title" JNull) ;;
  v_description <- lift (get job "description" JNull) ;;
  v_numberOfPosts <- lift (get job "numberOfPosts" JNull) ;;
  v_locationMap <- lift (get job "locationMap" JNull) ;;
  v_euresFlag <- lift (get job "euresFlag" JNull) ;;
  v_jobCategoriesCodes <- lift (get job "jobCategoriesCodes" JNull) ;;
  v_positionScheduleCodes <- lift (get job "positionScheduleCodes" JNull) ;;
  v_positionOfferingCode <- lift (get job "positionOfferingCode" JNull) ;;
  v_employer <- lift (get job "employer" JNull) ;;
  v_availableLanguages <- lift (get job "availableLanguages" JNull) ;;
  v_score <- lift (get job "score" JNull) ;;
  job_id <- lift (get job "id" JNull) ;;
  v_details <- get_job_details depth job_id cookie xsrf_token ;;
  execute_insert_or_replace
    v_id v_creationDate v_lastModificationDate v_title v_description v_numberOfPosts
    (json_dumps v_locationMap) v_euresFlag (json_dumps v_jobCategoriesCodes)
    (json_dumps v_positionScheduleCodes) v_positionOfferingCode (json_dumps v_employer)
    (json_dumps v_availableLanguages) v_score (json_dumps v_details).

(** The loop-carried variables [(cookie, xsrf_token, results)]. *)
Definition crawl_state := (string * string * list json)%type.

(** The body of [for page in range(1, total_pages + 1)]. *)
Definition crawl_page (depth : nat) (page : Z) (st : crawl_state) : M crawl_state :=
  let '(cookie, xsrf_token, results) := st in
  ' (response, cookie, xsrf_token) <- make_api_request depth cookie xsrf_token page ;;
  jobs <- lift (get response "jvs" (JArr [])) ;;
  items <- lift (iter jobs) ;;
  for_each items (fun job _ => store_job depth cookie xsrf_token job) tt ;;;
  commit ;;;
  emit (EvSleep 1) ;;;
  ret (cookie, xsrf_token, results ++ items).

Definition handle_pagination (depth : nat) (cookie xsrf_token : string) : M (list json) :=
  ' (response, cookie, xsrf_token) <- make_api_request depth cookie xsrf_token 1 ;;
  total <- lift (get response "numberRecords" (JInt 0)) ;;
  total <- lift (as_int total) ;;
  ' (_, _, results) <-
    for_each (range_from_1 (total_pages total)) (crawl_page depth) (cookie, xsrf_token, []) ;;
  ret results.

(** What [main] does with the stored credential: both parts must be present
    and truthy, otherwise a fresh one is acquired. *)
Definition load : M (option (json * string)) :=
  cookie <- load_stored_cookie ;;
  xsrf_token <- load_xsrf_token ;;
  match xsrf_token with
  | Some token =>
      if truthy cookie && negb (String.eqb token "")
      then ret (Some (cookie, token))
      else ret None
  | None => ret None
  end.

(** [main], returning the number of entries it reports. A stored ["Cookie"]
    that is truthy but not a string is refused by [requests] as a header
    value before anything is sent. *)
Definition main (depth : nat) : M nat :=
  stored <- load ;;
  ' (cookie, xsrf_token) <-
    match stored with
    | Some (JStr cookie, token) => ret (cookie, token)
    | Some (_, _) => raise InvalidHeader
    | None => reload_cookie
    end ;;
  jobs <- handle_pagination depth cookie xsrf_token ;;
  ret (List.length jobs).

End Pipeline.
Import Pipeline.

(* ===================================================================== *)
(** ** Concrete inputs *)
(* ===================================================================== *)

Module Inputs.

(** The engine of the concrete inputs below. Their ids are texts, their
    [numberOfPosts] integers and their scores absent, so no column affinity
    changes a value and no REAL is ever written as text. *)
Definition plain_engine : Engine :=
  mkEngine (fun _ => "") (fun v => v) (fun v => v).

Definition world (u : list Response) (b : list (list log_entry)) (cf : file json)
  (xf : file string) (t d : list Row) (tr : list Event) : World :=
  mkWorld u b cf xf t d tr plain_engine.

Definition empty_world : World := world [] [] Missing Missing [] [] [].

Definition session_entry (v : string) : log_entry :=
  set_cookie_entry (JStr ("EURES_JVSE_SESSIONID=" ++ v ++ "; Path=/")%string).

Definition xsrf_entry (v : string) : log_entry :=
  set_cookie_entry (JStr ("XSRF-TOKEN=" ++ v ++ "; Path=/")%string).

(** A log carrying one session cookie and one XSRF token. *)
Definition good_log (sid token : string) : list log_entry :=
  [session_entry sid; xsrf_entry token].

Definition listing (i t : string) : json :=
  JObj [("id", JStr i); ("title", JStr t); ("numberOfPosts", JInt 1)].

Definition row_of (i t : string) (d : json) : Row :=
  mkRow (SText i) SNull SNull (SText t) SNull (SInteger 1) JNull SNull JNull JNull
        SNull JNull JNull SNull d.

Definition answer (doc : json) : Response := mkResponse 200 (Some doc).
Definition denied : Response := mkResponse 403 None.
Definition search_page (total : Z) (jobs : list json) : Response :=
  answer (JObj [("numberRecords", JInt total); ("jvs", JArr jobs)]).

(** Three refusals in a row, then an answer; three browser sessions. *)
Definition thrice_denied : World :=
  world [denied; denied; denied; answer (JStr "doc")]
          [good_log "s1" "t1"; good_log "s2" "t2"; good_log "s3" "t3"]
          Missing Missing [] [] [].

(** Sixty records: the probe, then two pages of two and one listings, each
    followed by its detail responses. *)
Definition sixty_records : World :=
  world [search_page 60 [];
           search_page 60 [listing "a" "A"; listing "b" "B"];
           answer (JStr "da"); mkResponse 500 None;
           search_page 60 [listing "c" "C"];
           answer (JStr "dc")]
          [] Missing Missing [] [] [].

(** One page of two listings whose detail requests are refused while the
    credential is the stale one. *)
Definition stale_session : World :=
  world [search_page 2 [];
           search_page 2 [listing "a" "A"; listing "b" "B"];
           denied; answer (JStr "da");
           denied; answer (JStr "db")]
          [good_log "s1" "t1"; good_log "s2" "t2"] Missing Missing [] [] [].

(** One page of two listings; the first detail response is 200 with a body
    that is not JSON. *)
Definition malformed_detail : World :=
  world [search_page 1 [];
           search_page 1 [listing "a" "A"; listing "b" "B"];
           mkResponse 200 None; answer (JStr "db")]
          [] Missing Missing [] [] [].

End Inputs.
Import Inputs.

(* ===================================================================== *)
(** ** Predicates used in the statements *)
(* ===================================================================== *)

Module Props.

(** What one log entry does to the loop variables of the extraction. *)
Definition keeps_xsrf (e : log_entry) : Prop :=
  forall st, snd (fst (scan_entry e st)) = snd st.

Definition silent (e : log_entry) : Prop :=
  forall st, fst (scan_entry e st) = st.

(** First-match-wins, as the specification words it: the values returned are
    those of the first entry carrying a session id and of the first entry
    carrying a token. *)
Definition first_match_wins : Prop :=
  forall (inert mid post : list log_entry) (sid token : string),
    Forall silent inert -> Forall keeps_xsrf mid ->
    extract_cookies_from_logs
      (inert ++ session_entry sid :: mid ++ xsrf_entry token :: post)
      = Ok (("EURES_JVSE_SESSIONID=" ++ sid)%string, token).

(** The credential round trip, as the specification words it: what [load]
    returns after [save c] is [c]. *)
Definition round_trip : Prop :=
  forall (cookie xsrf_token : string) (w : World),
    cookie <> "" -> xsrf_token <> "" -> strip xsrf_token = xsrf_token ->
    exists w1 w2,
      save cookie xsrf_token w = Returns tt w1
      /\ load w1 = Returns (Some (JStr cookie, xsrf_token)) w2.

(** The world after one successful [reload_cookie]: a browser session, then
    the two files written. *)
Definition persisted (cookie xsrf_token : string) (w : World) : World :=
  let doc := JObj [("Cookie", JStr (cookie ++ "; XSRF-TOKEN=" ++ xsrf_token))] in
  log (EvSaveXsrf (strip xsrf_token))
    (set_xsrf_file (Holds (strip xsrf_token))
       (log (EvSaveCookie doc)
          (set_cookie_file (Holds doc)
             (log EvQuit (log (EvSleep 7) (log EvAcquire w)))))).

(** The actions of one successful [reload_cookie]. *)
Definition refresh_events (cookie xsrf_token : string) : list Event :=
  [EvAcquire; EvSleep 7; EvQuit;
   EvSaveCookie (JObj [("Cookie", JStr (cookie ++ "; XSRF-TOKEN=" ++ xsrf_token))]);
   EvSaveXsrf (strip xsrf_token)].

(** The whole exchange of a call refused once per credential of [creds]: each
    request, then the refresh that follows its refusal, then the next request
    carrying the credential just acquired. *)
Fixpoint retry_trace (request : string -> string -> Event) (c x : string)
    (creds : list (string * string)) : list Event :=
  match creds with
  | [] => [request c x]
  | (c', x') :: more => request c x :: refresh_events c' x' ++ retry_trace request c' x' more
  end.

(** Both parts of the credential pass as header values. *)
Definition sendable (cookie xsrf_token : string) : bool :=
  header_ok cookie && header_ok xsrf_token.

(** What [get_job_details] returns for a response other than 403. *)
Definition detail_of (r : Response) : json :=
  if ok r then match body r with Some doc => doc | None => JNull end else JNull.

(** The browser session capturing [logs] yields the credential [cred]. *)
Definition yields (logs : list log_entry) (cred : string * string) : Prop :=
  extract_cookies_from_logs logs = Ok cred.

(** At most one refresh per logical call, as the specification words it. *)
Definition at_most_one_refresh : Prop :=
  forall (depth : nat) (cookie xsrf_token : string) (page : Z) (w : World),
    (count is_acquire (trace (world_of (make_api_request depth cookie xsrf_token page w)))
     <= count is_acquire (trace w) + 1)%nat.

(** [job.get(k)] for a listing that is a dict. *)
Definition member (job : json) (k : string) : json :=
  match get job k JNull with
  | Ok v => v
  | Err _ => JNull
  end.

Definition listing_id (job : json) : json := member job "id".

(** sqlite3 accepts the value as a parameter. *)
Definition bindable (v : json) : bool :=
  match bind_param v with
  | Ok _ => true
  | Err _ => false
  end.

(** The value sqlite3 binds for a member that binds. *)
Definition bound (v : json) : sqlval :=
  match bind_param v with
  | Ok c => c
  | Err _ => SNull
  end.

(** The row of a listing whose detail fetch gave [detail]: every column, as
    the engine [eng] keeps it. *)
Definition listing_row (eng : Engine) (job detail : json) : Row :=
  stored_row eng
    (bound (member job "id")) (bound (member job "creationDate"))
    (bound (member job "lastModificationDate")) (bound (member job "title"))
    (bound (member job "description")) (bound (member job "numberOfPosts"))
    (json_dumps (member job "locationMap")) (bound (member job "euresFlag"))
    (json_dumps (member job "jobCategoriesCodes"))
    (json_dumps (member job "positionScheduleCodes"))
    (bound (member job "positionOfferingCode")) (json_dumps (member job "employer"))
    (json_dumps (member job "availableLanguages")) (bound (member job "score"))
    (json_dumps detail).

(** The key under which a listing is stored. *)
Definition stored_id (eng : Engine) (job : json) : sqlval :=
  text_affinity eng (bound (listing_id job)).

(** The listing's id can be written into the [Referer] of its detail
    request. *)
Definition fetchable (job : json) : bool := referer_ok (listing_id job).

(** The columns bound as they come, without [json.dumps]. *)
Definition SCALAR_COLUMNS : list string :=
  ["id"; "creationDate"; "lastModificationDate"; "title"; "description";
   "numberOfPosts"; "euresFlag"; "positionOfferingCode"; "score"].

(** A listing the INSERT statement accepts: a dict whose scalar members bind. *)
Definition storable (job : json) : bool :=
  match job with
  | JObj _ => forallb (fun k => bindable (member job k)) SCALAR_COLUMNS
  | _ => false
  end.

(** A detail response that neither triggers a refresh nor fails to parse. *)
Definition answered (r : Response) : Prop :=
  status r <> 403 /\ (ok r = true -> body r <> None).

(** A search response, not a 403, whose document is a dict listing [jobs]. *)
Definition serves (r : Response) (jobs : list json) : Prop :=
  status r <> 403
  /\ exists m, body r = Some (JObj m)
       /\ iter (match assoc "jvs" m with Some v => v | None => JArr [] end) = Ok jobs.

(** The listing ids of the detail requests of a trace, in order. *)
Definition get_ids (tr : list Event) : list json :=
  flat_map (fun ev => match ev with EvGet i _ _ => [i] | _ => [] end) tr.

(** The tally of a stretch of trace: searches, commits, and one detail
    request and one upsert per listing of [jobs], no acquisition. *)
Definition page_effects (evs : list Event) (posts commits : nat) (jobs : list json) : Prop :=
  count is_post evs = posts
  /\ count is_commit evs = commits
  /\ get_ids evs = map listing_id jobs
  /\ count is_get evs = List.length jobs
  /\ count is_upsert evs = List.length jobs
  /\ count is_acquire evs = 0%nat.

(** The actions of storing [jobs] when their detail requests get the
    responses [ds]: for each listing its detail request, then the upsert of
    its row. *)
Fixpoint job_events (eng : Engine) (c x : string) (jobs : list json) (ds : list Response)
  : list Event :=
  match jobs, ds with
  | job :: jobs', r :: ds' =>
      EvGet (listing_id job) c x :: EvUpsert (listing_row eng job (detail_of r))
        :: job_events eng c x jobs' ds'
  | _, _ => []
  end.

(** The actions of one page of the crawl. *)
Definition page_events (eng : Engine) (page : Z) (c x : string) (jobs : list json)
    (ds : list Response) : list Event :=
  EvPost page c x :: job_events eng c x jobs ds ++ [EvCommit; EvSleep 1].

(** The two-page scenario, as the specification words it: 60 records make
    exactly 2 search calls. *)
Definition sixty_records_two_searches : Prop :=
  forall (depth : nat) (c x : string) (w w' : World) (probe : Response)
         (rest : list Response) (m0 : list (string * json)) (results : list json),
    upstream w = probe :: rest -> status probe <> 403 -> body probe = Some (JObj m0) ->
    assoc "numberRecords" m0 = Some (JInt 60) ->
    handle_pagination depth c x w = Returns results w' ->
    count is_post (trace w') = (count is_post (trace w) + 2)%nat.

(** A failed detail fetch, as the specification words it: a status outside
    2xx or a body that is not JSON gives an absent result. *)
Definition failed_detail_is_absent : Prop :=
  forall (depth : nat) (job_id : json) (c x : string) (w : World) (r : Response)
         (rest : list Response),
    (1 <= depth)%nat -> upstream w = r :: rest -> status r <> 403 ->
    (status r < 200 \/ 300 <= status r \/ body r = None) ->
    exists w', get_job_details depth job_id c x w = Returns JNull w'.

End Props.
Import Props.

(* ===================================================================== *)
(** ** Further predicates: extraction, relation, frames, whole crawls *)
(* ===================================================================== *)

Module Coverage.

(** The string holds a [;]. *)
Fixpoint has_semicolon (s : string) : bool :=
  match s with
  | EmptyString => false
  | String c t => Ascii.eqb c ";" || has_semicolon t
  end.

(** A value as the pattern [[^;]+] can capture it. *)
Definition captured (v : string) : Prop := v <> "" /\ has_semicolon v = false.

(** Both loop variables, when set, hold captured values. *)
Definition clean (st : found) : Prop :=
  (forall v, fst st = Some v -> captured v) /\ (forall v, snd st = Some v -> captured v).

(** The cookies the inner loop walks for an entry, if it gets that far. *)
Definition cookies_of (e : log_entry) : option (list json) :=
  match e with
  | Some doc =>
      match entry_cookies doc with
      | Ok (Some cookies) => Some cookies
      | _ => None
      end
  | None => None
  end.

(** One assignment of the scan: a value matched for one of the two names. *)
Inductive cookie_match :=
| SessionValue (v : string)
| TokenValue (v : string).

(** What the loop body finds for [name] in a cookie: nothing, a value, or an
    exception. *)
Definition name_match (name : string) (c : json) : result (option string) :=
  rbind (py_in name c) (fun present =>
  if present then rbind (re_group1 name c) (fun v => Ok (Some v)) else Ok None).

(** The matches made in one cookie, in order, and whether the body ran to its
    end. *)
Definition cookie_matches (c : json) : list cookie_match * bool :=
  match name_match SESSION_NAME c with
  | Err _ => ([], false)
  | Ok s =>
      let first := match s with Some v => [SessionValue v] | None => [] end in
      match name_match XSRF_NAME c with
      | Err _ => (first, false)
      | Ok t => (first ++ match t with Some v => [TokenValue v] | None => [] end, true)
      end
  end.

(** The matches made in the cookies of one entry, up to the first cookie that
    raises. *)
Fixpoint cookies_matches (cs : list json) : list cookie_match * bool :=
  match cs with
  | [] => ([], true)
  | c :: cs' =>
      if snd (cookie_matches c)
      then (fst (cookie_matches c) ++ fst (cookies_matches cs'), snd (cookies_matches cs'))
      else (fst (cookie_matches c), false)
  end.

(** The matches made in one log entry, and whether all its cookies were
    processed. *)
Definition entry_matches (e : log_entry) : list cookie_match * bool :=
  match cookies_of e with
  | Some cs => cookies_matches cs
  | None => ([], false)
  end.

(** The last session value of a list of matches. *)
Fixpoint latest_session (ms : list cookie_match) : option string :=
  match ms with
  | [] => None
  | m :: rest =>
      match latest_session rest with
      | Some v => Some v
      | None => match m with SessionValue v => Some v | TokenValue _ => None end
      end
  end.

(** The last token value of a list of matches. *)
Fixpoint latest_token (ms : list cookie_match) : option string :=
  match ms with
  | [] => None
  | m :: rest =>
      match latest_token rest with
      | Some v => Some v
      | None => match m with TokenValue v => Some v | SessionValue _ => None end
      end
  end.

Definition is_some {A} (o : option A) : bool :=
  match o with
  | Some _ => true
  | None => false
  end.

(** The matches made before the scan stops, [seen] being those made so far:
    the scan stops at the end of the first entry whose cookies were all
    processed and after which both names have been matched, or at the end of
    the log. *)
Fixpoint scanned (logs : list log_entry) (seen : list cookie_match) : list cookie_match :=
  match logs with
  | [] => seen
  | e :: rest =>
      let seen' := seen ++ fst (entry_matches e) in
      if snd (entry_matches e) && is_some (latest_session seen') && is_some (latest_token seen')
      then seen'
      else scanned rest seen'
  end.

(** The loop variables after the assignments [ms], made in order from [st]. *)
Definition assign (st : found) (ms : list cookie_match) : found :=
  fold_left (fun st m =>
               match m with
               | SessionValue v => (Some v, snd st)
               | TokenValue v => (fst st, Some v)
               end) ms st.

(** The match holds a non-empty value. *)
Definition valued (m : cookie_match) : Prop :=
  match m with
  | SessionValue v => v <> ""
  | TokenValue v => v <> ""
  end.

(** The entry makes no match. *)
Definition matchless (e : log_entry) : Prop := fst (entry_matches e) = [].

(** The entry carrying the two cookies of the example in one header. *)
Definition both_entry (sid token : string) : log_entry :=
  set_cookie_entry (JArr [JStr ("EURES_JVSE_SESSIONID=" ++ sid ++ "; Path=/")%string;
                          JStr ("XSRF-TOKEN=" ++ token ++ "; Path=/")%string]).

(** The cookie is a string naming [name]. *)
Definition names (name : string) (c : json) : bool :=
  match c with
  | JStr s => contains name s
  | _ => false
  end.

(** No cookie of the entry names [name]. *)
Definition never_names (name : string) (e : log_entry) : Prop :=
  forall cookies, cookies_of e = Some cookies -> Forall (fun c => names name c = false) cookies.

(** ["\n".join(cs)]. *)
Fixpoint join_lines (cs : list string) : string :=
  match cs with
  | [] => EmptyString
  | c :: rest =>
      match rest with
      | [] => c
      | _ => (c ++ String "010" (join_lines rest))%string
      end
  end.

(** The string holds no line feed. *)
Fixpoint newline_free (s : string) : bool :=
  match s with
  | EmptyString => true
  | String c t => negb (Ascii.eqb c "010") && newline_free t
  end.

(** No two rows of the relation share a (non-NULL) id. *)
Definition unique_ids (t : list Row) : Prop :=
  forall k, (List.length (rows_with_id k t) <= 1)%nat.

(** Every run of [m] takes a world to one related to it by [R], whether it
    returns or raises. *)
Definition steps (R : World -> World -> Prop) {A} (m : M A) : Prop :=
  forall w, R w (world_of (m w)).

(** Nothing was committed between the two worlds. *)
Definition same_durable (w w' : World) : Prop := durable w' = durable w.

(** Ids unique before stay unique after, in the table and in what is
    committed. *)
Definition keeps_unique (w w' : World) : Prop :=
  unique_ids (table w) /\ unique_ids (durable w) ->
  unique_ids (table w') /\ unique_ids (durable w').

(** What [main] reports for an outcome of the crawl. *)
Definition report (o : outcome (list json)) : outcome nat :=
  match o with
  | Returns jobs w => Returns (List.length jobs) w
  | Raises e w => Raises e w
  end.

(** One page of the upstream script: the search response, the listings it
    serves and the responses to their detail requests. *)
Definition page_script := (Response * list json * list Response)%type.

(** The responses the upstream gives for these pages, in order. *)
Definition script_responses (pages : list page_script) : list Response :=
  flat_map (fun ps => fst (fst ps) :: snd ps) pages.

(** All the listings of these pages, in order. *)
Definition script_jobs (pages : list page_script) : list json :=
  flat_map (fun ps => snd (fst ps)) pages.

(** The page response lists its listings, each binds and has an id fit for
    the [Referer], and each detail request gets a response that is neither a
    403 nor malformed. *)
Definition well_served (ps : page_script) : Prop :=
  serves (fst (fst ps)) (snd (fst ps))
  /\ Forall (fun job => storable job = true) (snd (fst ps))
  /\ Forall (fun job => fetchable job = true) (snd (fst ps))
  /\ Forall answered (snd ps)
  /\ List.length (snd ps) = List.length (snd (fst ps)).

(** The actions of crawling these pages, the first being page [k]. *)
Fixpoint script_events (eng : Engine) (c x : string) (k : nat) (pages : list page_script)
  : list Event :=
  match pages with
  | [] => []
  | ps :: more =>
      page_events eng (Z.of_nat k) c x (snd (fst ps)) (snd ps)
        ++ script_events eng c x (S k) more
  end.

(** Every request of the trace carries the credential [(c, x)]. *)
Definition carried (c x : string) (evs : list Event) : Prop :=
  Forall (fun ev =>
            match ev with
            | EvPost _ c0 x0 => c0 = c /\ x0 = x
            | EvGet _ c0 x0 => c0 = c /\ x0 = x
            | _ => True
            end) evs.

End Coverage.
Import Coverage.

(* ===================================================================== *)
(** ** Page count *)
(* ===================================================================== *)

Section PageCount.

Lemma total_pages_ceiling (total : Z) :
  total_pages total = Qceiling (inject_Z total / inject_Z 50).
Proof.
  unfold total_pages, Qceiling, Qfloor, Qdiv, Qmult, Qinv, Qopp, inject_Z. simpl.
  rewrite Z.mul_1_r.
  pose proof (Z.div_mod (total + 49) 50 ltac:(lia)) as Hd.
  pose proof (Z.mod_pos_bound (total + 49) 50 ltac:(lia)) as Hb.
  pose proof (Z.div_mod (- total) 50 ltac:(lia)) as Hd'.
  pose proof (Z.mod_pos_bound (- total) 50 ltac:(lia)) as Hb'.
  lia.
Qed.

Lemma range_from_1_length (n : Z) : List.length (range_from_1 n) = Z.to_nat n.
Proof. unfold range_from_1. rewrite length_map, length_seq. reflexivity. Qed.

(** C5. For every integer [total] (in particular every [total >= 0]) the page
    count [(total + 49) // 50] is the ceiling of [total / 50], and the page loop
    runs that many times; 0 records give 0 pages, 50 give 1 and 51 give 2. *)
Theorem page_count_is_ceiling (total : Z) :
  total_pages total = Qceiling (inject_Z total / inject_Z 50)
  /\ List.length (range_from_1 (total_pages total))
     = Z.to_nat (Qceiling (inject_Z total / inject_Z 50))
  /\ total_pages 0 = 0 /\ total_pages 50 = 1 /\ total_pages 51 = 2.
Proof.
  split; [apply total_pages_ceiling|].
  split; [rewrite range_from_1_length, total_pages_ceiling; reflexivity|].
  repeat split.
Qed.

End PageCount.

(* ===================================================================== *)
(** ** Upsert *)
(* ===================================================================== *)

Section Upsert.

Lemma sql_eqb_refl (v : sqlval) : v <> SNull -> sql_eqb v v = true.
Proof.
  destruct v; simpl; intros H; try congruence.
  - apply Z.eqb_refl.
  - apply FloatAxioms.Leibniz.eqb_spec. reflexivity.
  - apply String.eqb_refl.
Qed.

Lemma filter_out_then_in {A} (p : A -> bool) (l : list A) :
  filter p (filter (fun x => negb (p x)) l) = [].
Proof.
  induction l as [|x l IH]; simpl; [reflexivity|].
  destruct (p x) eqn:E; simpl; [exact IH|]. rewrite E. exact IH.
Qed.

Lemma rows_with_id_after_insert (r : Row) (t : list Row) :
  id r <> SNull -> rows_with_id (id r) (insert_or_replace r t) = [r].
Proof.
  intros H. unfold rows_with_id, insert_or_replace, collides.
  rewrite filter_app, filter_out_then_in. simpl.
  rewrite sql_eqb_refl by exact H. reflexivity.
Qed.

End Upsert.

(* ===================================================================== *)
(** ** Cookie and token extraction *)
(* ===================================================================== *)

Section Extraction.

Lemma both_without_xsrf (a : option string) : both (a, None) = false.
Proof. unfold both. simpl. apply andb_false_r. Qed.

Lemma truthy_str_nonempty (s : string) : s <> "" -> truthy_str (Some s) = true.
Proof.
  intros H. simpl. destruct (String.eqb_spec s ""); [contradiction | reflexivity].
Qed.

Lemma scan_logs_cons (e : log_entry) (rest : list log_entry) (st : found) :
  scan_logs (e :: rest) st =
  (if snd (scan_entry e st) && both (fst (scan_entry e st))
   then fst (scan_entry e st) else scan_logs rest (fst (scan_entry e st))).
Proof. simpl. destruct (scan_entry e st). reflexivity. Qed.

Lemma both_found (s x : string) : s <> "" -> x <> "" -> both (Some s, Some x) = true.
Proof.
  intros Hs Hx. unfold both. simpl fst. simpl snd.
  rewrite !truthy_str_nonempty by assumption. reflexivity.
Qed.

Lemma take_value_clean (s : string) : has_semicolon (take_value s) = false.
Proof.
  induction s as [|c t IH]; [reflexivity|].
  simpl. destruct (Ascii.eqb c ";") eqn:E; [reflexivity|].
  simpl. rewrite E. exact IH.
Qed.

Lemma re_search_captured (name s v : string) : re_search name s = Some v -> captured v.
Proof.
  induction s as [|c t IH]; simpl.
  - destruct (drop_prefix name "") as [rest|]; [|discriminate].
    pose proof (take_value_clean rest) as Hc.
    destruct (take_value rest) eqn:E; [discriminate|].
    intros H. injection H as <-. split; [discriminate | exact Hc].
  - destruct (drop_prefix name (String c t)) as [rest|].
    + pose proof (take_value_clean rest) as Hc.
      destruct (take_value rest) eqn:E; [exact IH|].
      intros H. injection H as <-. split; [discriminate | exact Hc].
    + exact IH.
Qed.

Lemma re_group1_captured (name : string) (c : json) (v : string) :
  re_group1 name c = Ok v -> captured v.
Proof.
  destruct c; simpl; try discriminate.
  destruct (re_search name s) eqn:E; [|discriminate].
  intros H. injection H as <-. exact (re_search_captured _ _ _ E).
Qed.

Lemma assign_app (st : found) (a b : list cookie_match) :
  assign st (a ++ b) = assign (assign st a) b.
Proof. unfold assign. apply fold_left_app. Qed.

Lemma assign_latest (ms : list cookie_match) :
  forall st,
    assign st ms
    = (match latest_session ms with Some v => Some v | None => fst st end,
       match latest_token ms with Some v => Some v | None => snd st end).
Proof.
  induction ms as [|m ms IH]; intros [a b]; [reflexivity|].
  change (assign (a, b) (m :: ms))
    with (assign (match m with
                  | SessionValue v => (Some v, snd (a, b))
                  | TokenValue v => (fst (a, b), Some v)
                  end) ms).
  rewrite IH. simpl latest_session. simpl latest_token.
  destruct m; destruct (latest_session ms); destruct (latest_token ms); reflexivity.
Qed.

Lemma scan_cookie_matches (c : json) (st : found) :
  scan_cookie c st = (assign st (fst (cookie_matches c)), snd (cookie_matches c)).
Proof.
  destruct st as [a b]. unfold scan_cookie, cookie_matches, name_match, rbind.
  destruct (py_in SESSION_NAME c) as [[|]|]; [| |reflexivity].
  - destruct (re_group1 SESSION_NAME c); [|reflexivity].
    destruct (py_in XSRF_NAME c) as [[|]|]; [| reflexivity | reflexivity].
    destruct (re_group1 XSRF_NAME c); reflexivity.
  - destruct (py_in XSRF_NAME c) as [[|]|]; [| reflexivity | reflexivity].
    destruct (re_group1 XSRF_NAME c); reflexivity.
Qed.

Lemma scan_cookies_matches (cs : list json) :
  forall st, scan_cookies cs st = (assign st (fst (cookies_matches cs)), snd (cookies_matches cs)).
Proof.
  induction cs as [|c cs IH]; intros st; [reflexivity|].
  simpl. rewrite scan_cookie_matches.
  destruct (snd (cookie_matches c)); [|reflexivity].
  rewrite IH. simpl. rewrite assign_app. reflexivity.
Qed.

Lemma scan_entry_matches (e : log_entry) (st : found) :
  scan_entry e st = (assign st (fst (entry_matches e)), snd (entry_matches e)).
Proof.
  unfold scan_entry, entry_matches, cookies_of. destruct e as [doc|]; [|reflexivity].
  destruct (entry_cookies doc) as [[cs|]|]; try reflexivity.
  apply scan_cookies_matches.
Qed.

Lemma cookie_matches_valued (c : json) : Forall valued (fst (cookie_matches c)).
Proof.
  unfold cookie_matches, name_match, rbind.
  destruct (py_in SESSION_NAME c) as [[|]|]; [| |constructor].
  - destruct (re_group1 SESSION_NAME c) eqn:E1; [|constructor].
    pose proof (proj1 (re_group1_captured _ _ _ E1)) as V1.
    destruct (py_in XSRF_NAME c) as [[|]|]; simpl; [| repeat constructor; exact V1 ..].
    destruct (re_group1 XSRF_NAME c) eqn:E2; simpl; [|repeat constructor; exact V1].
    pose proof (proj1 (re_group1_captured _ _ _ E2)) as V2.
    repeat constructor; assumption.
  - destruct (py_in XSRF_NAME c) as [[|]|]; simpl; [| constructor ..].
    destruct (re_group1 XSRF_NAME c) eqn:E2; simpl; [|constructor].
    pose proof (proj1 (re_group1_captured _ _ _ E2)) as V2.
    repeat constructor; assumption.
Qed.

Lemma cookies_matches_valued (cs : list json) : Forall valued (fst (cookies_matches cs)).
Proof.
  induction cs as [|c cs IH]; [constructor|].
  simpl. destruct (snd (cookie_matches c)); simpl.
  - apply Forall_app. split; [apply cookie_matches_valued | exact IH].
  - apply cookie_matches_valued.
Qed.

Lemma entry_matches_valued (e : log_entry) : Forall valued (fst (entry_matches e)).
Proof.
  unfold entry_matches. destruct (cookies_of e); [apply cookies_matches_valued | constructor].
Qed.

Lemma latest_session_valued (ms : list cookie_match) (v : string) :
  Forall valued ms -> latest_session ms = Some v -> v <> "".
Proof.
  induction 1 as [|m ms Hm _ IH]; simpl; [discriminate|].
  destruct (latest_session ms); [exact IH|].
  destruct m; [|discriminate]. intros H. injection H as <-. exact Hm.
Qed.

Lemma latest_token_valued (ms : list cookie_match) (v : string) :
  Forall valued ms -> latest_token ms = Some v -> v <> "".
Proof.
  induction 1 as [|m ms Hm _ IH]; simpl; [discriminate|].
  destruct (latest_token ms); [exact IH|].
  destruct m; [discriminate|]. intros H. injection H as <-. exact Hm.
Qed.

Lemma both_latest (ms : list cookie_match) :
  Forall valued ms ->
  both (latest_session ms, latest_token ms)
  = is_some (latest_session ms) && is_some (latest_token ms).
Proof.
  intros H. unfold both. simpl fst. simpl snd.
  destruct (latest_session ms) as [s|] eqn:Es; [|reflexivity].
  destruct (latest_token ms) as [x|] eqn:Ex; [|apply andb_false_r].
  rewrite !truthy_str_nonempty;
    [reflexivity | exact (latest_token_valued ms x H Ex) | exact (latest_session_valued ms s H Es)].
Qed.

Lemma scanned_valued (logs : list log_entry) :
  forall seen, Forall valued seen -> Forall valued (scanned logs seen).
Proof.
  induction logs as [|e logs IH]; intros seen H; [exact H|].
  assert (H' : Forall valued (seen ++ fst (entry_matches e))).
  { apply Forall_app. split; [exact H | apply entry_matches_valued]. }
  simpl.
  destruct (snd (entry_matches e) && is_some (latest_session (seen ++ fst (entry_matches e)))
            && is_some (latest_token (seen ++ fst (entry_matches e))));
    [exact H' | apply IH; exact H'].
Qed.

Lemma scan_logs_scanned (logs : list log_entry) :
  forall seen, Forall valued seen ->
    scan_logs logs (assign (None, None) seen) = assign (None, None) (scanned logs seen).
Proof.
  induction logs as [|e logs IH]; intros seen H; [reflexivity|].
  assert (H' : Forall valued (seen ++ fst (entry_matches e))).
  { apply Forall_app. split; [exact H | apply entry_matches_valued]. }
  rewrite scan_logs_cons, scan_entry_matches. simpl fst. simpl snd.
  rewrite <- assign_app.
  rewrite (assign_latest (seen ++ fst (entry_matches e)) (None, None)) at 1.
  replace (match latest_session (seen ++ fst (entry_matches e)) with
           | Some v => Some v
           | None => fst (@None string, @None string)
           end) with (latest_session (seen ++ fst (entry_matches e)))
    by (destruct (latest_session (seen ++ fst (entry_matches e))); reflexivity).
  replace (match latest_token (seen ++ fst (entry_matches e)) with
           | Some v => Some v
           | None => snd (@None string, @None string)
           end) with (latest_token (seen ++ fst (entry_matches e)))
    by (destruct (latest_token (seen ++ fst (entry_matches e))); reflexivity).
  rewrite (both_latest _ H'), andb_assoc. simpl scanned.
  destruct (snd (entry_matches e) && is_some (latest_session (seen ++ fst (entry_matches e)))
            && is_some (latest_token (seen ++ fst (entry_matches e))));
    [reflexivity | apply IH; exact H'].
Qed.

Lemma extraction_by_matches (logs : list log_entry) :
  extract_cookies_from_logs logs
  = match latest_session (scanned logs []), latest_token (scanned logs []) with
    | Some s, Some x => Ok ((SESSION_NAME ++ s)%string, x)
    | _, _ => Err NOT_FOUND
    end.
Proof.
  unfold extract_cookies_from_logs.
  change (@None string, @None string) with (assign (None, None) []).
  rewrite (scan_logs_scanned logs [] (Forall_nil _)), assign_latest.
  pose proof (scanned_valued logs [] (Forall_nil _)) as V.
  destruct (latest_session (scanned logs [])) as [s|] eqn:Es;
    destruct (latest_token (scanned logs [])) as [x|] eqn:Ex; simpl fst; simpl snd;
    try reflexivity.
  rewrite both_found;
    [reflexivity | exact (latest_session_valued _ s V Es) | exact (latest_token_valued _ x V Ex)].
Qed.

Lemma scan_logs_matchless (pre rest : list log_entry) (st : found) :
  Forall matchless pre -> both st = false -> scan_logs (pre ++ rest) st = scan_logs rest st.
Proof.
  intros H Hb. induction H as [|e pre He _ IH]; [reflexivity|].
  simpl app. rewrite scan_logs_cons, scan_entry_matches. simpl fst. simpl snd.
  unfold matchless in He. rewrite He. change (assign st []) with st.
  rewrite Hb, andb_false_r. exact IH.
Qed.

(** C6 (as amended). Scanning assigns on every match, so the value returned
    for each cookie name is the latest one matched before the scan stops; the
    scan stops at the end of the first entry whose cookies were all processed
    and after which both names have been matched, or at the end of the log.
    So, after entries that make no match, an entry whose header is
    [EURES_JVSE_SESSIONID=abc123; Path=/] and an entry whose header is
    [XSRF-TOKEN=xyz789; Path=/], in either order and with entries that make no
    match between them, or one entry carrying both cookies, give
    [EURES_JVSE_SESSIONID=abc123] and [xyz789] whatever follows. On any log
    the result is either both values, non-empty, or the error: never one
    alone. *)
Theorem extraction_latest_match (pre mid post logs : list log_entry) :
  Forall matchless pre -> Forall matchless mid ->
  extract_cookies_from_logs logs
    = match latest_session (scanned logs []), latest_token (scanned logs []) with
      | Some s, Some x => Ok ((SESSION_NAME ++ s)%string, x)
      | _, _ => Err NOT_FOUND
      end
  /\ extract_cookies_from_logs
       (pre ++ session_entry "abc123" :: mid ++ xsrf_entry "xyz789" :: post)
     = Ok ("EURES_JVSE_SESSIONID=abc123", "xyz789")
  /\ extract_cookies_from_logs
       (pre ++ xsrf_entry "xyz789" :: mid ++ session_entry "abc123" :: post)
     = Ok ("EURES_JVSE_SESSIONID=abc123", "xyz789")
  /\ extract_cookies_from_logs (pre ++ both_entry "abc123" "xyz789" :: post)
     = Ok ("EURES_JVSE_SESSIONID=abc123", "xyz789")
  /\ (extract_cookies_from_logs logs = Err NOT_FOUND
      \/ exists s' x', s' <> "" /\ x' <> "" /\
           scan_logs logs (None, None) = (Some s', Some x') /\
           extract_cookies_from_logs logs = Ok ((SESSION_NAME ++ s')%string, x')).
Proof.
  intros Hpre Hmid.
  split; [apply extraction_by_matches|].
  split; [|split; [|split]].
  - unfold extract_cookies_from_logs.
    rewrite (scan_logs_matchless pre _ (None, None) Hpre eq_refl).
    rewrite scan_logs_cons.
    change (scan_entry (session_entry "abc123") (None, None))
      with ((Some "abc123", @None string), true).
    simpl fst. simpl snd. rewrite both_without_xsrf, andb_false_r.
    rewrite (scan_logs_matchless mid _ (Some "abc123", None) Hmid (both_without_xsrf _)).
    rewrite scan_logs_cons.
    change (scan_entry (xsrf_entry "xyz789") (Some "abc123", None))
      with ((Some "abc123", Some "xyz789"), true).
    reflexivity.
  - unfold extract_cookies_from_logs.
    rewrite (scan_logs_matchless pre _ (None, None) Hpre eq_refl).
    rewrite scan_logs_cons.
    change (scan_entry (xsrf_entry "xyz789") (None, None))
      with ((@None string, Some "xyz789"), true).
    simpl fst. simpl snd. change (both (None, Some "xyz789")) with false.
    rewrite andb_false_r.
    rewrite (scan_logs_matchless mid _ (None, Some "xyz789") Hmid eq_refl).
    rewrite scan_logs_cons.
    change (scan_entry (session_entry "abc123") (None, Some "xyz789"))
      with ((Some "abc123", Some "xyz789"), true).
    reflexivity.
  - unfold extract_cookies_from_logs.
    rewrite (scan_logs_matchless pre _ (None, None) Hpre eq_refl).
    rewrite scan_logs_cons.
    change (scan_entry (both_entry "abc123" "xyz789") (None, None))
      with ((Some "abc123", Some "xyz789"), true).
    reflexivity.
  - unfold extract_cookies_from_logs.
    destruct (scan_logs logs (None, None)) as [[s'|] [x'|]]; auto.
    destruct (both (Some s', Some x')) eqn:E; auto.
    right. exists s', x'. unfold both in E. simpl in E.
    apply andb_prop in E. destruct E as [E1 E2].
    repeat split; auto; intros ->; discriminate.
Qed.

Lemma extraction_latest_match_witness :
  extract_cookies_from_logs
    ([None; set_cookie_entry (JStr "theme=dark")]
       ++ xsrf_entry "xyz789"
       :: [set_cookie_entry (JArr [JInt 5])]
       ++ session_entry "abc123" :: [session_entry "later"; xsrf_entry "other"])
  = Ok ("EURES_JVSE_SESSIONID=abc123", "xyz789").
Proof.
  refine (proj1 (proj2 (proj2 (extraction_latest_match
            [None; set_cookie_entry (JStr "theme=dark")]
            [set_cookie_entry (JArr [JInt 5])]
            [session_entry "later"; xsrf_entry "other"] [] _ _)))).
  - repeat constructor.
  - repeat constructor.
Defined.

(** C6 (as stated) fails: the first session id of the log is overwritten by a
    later one met before the token. *)
Lemma first_match_wins_fails : ~ first_match_wins.
Proof.
  intros H.
  assert (Hmid : Forall keeps_xsrf [session_entry "other"]).
  { constructor; [|constructor]. intros [a b]. reflexivity. }
  specialize (H [] [session_entry "other"] [] "abc123" "xyz789" (Forall_nil _) Hmid).
  vm_compute in H. discriminate H.
Qed.

Example extraction_of_two_entries :
  extract_cookies_from_logs (good_log "abc123" "xyz789")
  = Ok ("EURES_JVSE_SESSIONID=abc123", "xyz789").
Proof. reflexivity. Qed.

Example interrupted_entry_does_not_stop_the_scan :
  extract_cookies_from_logs
    [session_entry "abc123"; set_cookie_entry (JArr [JStr "XSRF-TOKEN=xyz789"; JInt 5]);
     session_entry "later"]
  = Ok ("EURES_JVSE_SESSIONID=later", "xyz789").
Proof. reflexivity. Qed.

Example extraction_of_one_entry :
  extract_cookies_from_logs [session_entry "abc123"] = Err NOT_FOUND
  /\ extract_cookies_from_logs [xsrf_entry "xyz789"] = Err NOT_FOUND.
Proof. split; reflexivity. Qed.

End Extraction.

(* ===================================================================== *)
(** ** Credential round trip *)
(* ===================================================================== *)

Section CredentialStore.

Lemma lstrip_head (s : string) :
  lstrip s = "" \/ exists c u, lstrip s = String c u /\ is_space c = false.
Proof.
  induction s as [|c t IH]; simpl; [left; reflexivity|].
  destruct (is_space c) eqn:E; [exact IH|]. right. exists c, t. split; [reflexivity | exact E].
Qed.

Lemma rstrip_head (c : ascii) (t : string) :
  is_space c = false -> rstrip (String c t) = String c (rstrip t).
Proof. intros E. simpl. rewrite E. destruct (rstrip t); reflexivity. Qed.

Lemma rstrip_idempotent (s : string) : rstrip (rstrip s) = rstrip s.
Proof.
  induction s as [|c t IH]; [reflexivity|].
  simpl. destruct (rstrip t) as [|d u] eqn:E.
  - destruct (is_space c) eqn:Ec; simpl; [reflexivity|]. rewrite Ec. reflexivity.
  - change (rstrip (String c (String d u)) = String c (String d u)).
    simpl rstrip at 1. 
    change (match rstrip (String d u) with "" => if is_space c then "" else String c "" | kept => String c kept end = String c (String d u)).
    rewrite IH. reflexivity.
Qed.

Lemma strip_idempotent (s : string) : strip (strip s) = strip s.
Proof.
  unfold strip. destruct (lstrip_head s) as [-> | (c & u & -> & Ec)]; [reflexivity|].
  rewrite (rstrip_head c u Ec). simpl lstrip. rewrite Ec.
  rewrite <- (rstrip_head c u Ec). apply rstrip_idempotent.
Qed.

Lemma combined_cookie_nonempty (cookie token : string) :
  (cookie ++ "; XSRF-TOKEN=" ++ token)%string <> "".
Proof. destruct cookie; discriminate. Qed.

Lemma string_eqb_nonempty (s : string) : s <> "" -> String.eqb s "" = false.
Proof. intros H. destruct (String.eqb_spec s ""); [contradiction | reflexivity]. Qed.

Lemma load_of_files (c t : string) (w : World) :
  cookie_file w = Holds (JObj [("Cookie", JStr c)]) -> xsrf_file w = Holds t ->
  c <> "" -> strip (universal_newlines t) <> "" ->
  load w = Returns (Some (JStr c, strip (universal_newlines t))) w.
Proof.
  intros Hc Ht Hc' Ht'. unfold load, bind, load_stored_cookie, load_xsrf_token.
  cbv beta. rewrite Hc. simpl. rewrite Ht. simpl. rewrite !string_eqb_nonempty by assumption. reflexivity.
Qed.

Lemma is_space_CR : is_space CR = true.
Proof. reflexivity. Qed.

Lemma not_space_not_CR (c : ascii) : is_space c = false -> Ascii.eqb c CR = false.
Proof.
  intros H. destruct (Ascii.eqb_spec c CR) as [->|]; [|reflexivity].
  rewrite is_space_CR in H. discriminate H.
Qed.

Lemma strip_head (s : string) :
  strip s = "" \/ exists c u, strip s = String c u /\ is_space c = false.
Proof.
  unfold strip. destruct (lstrip_head s) as [-> | (c & u & -> & Ec)]; [left; reflexivity|].
  right. exists c, (rstrip u). split; [apply rstrip_head; exact Ec | exact Ec].
Qed.

Lemma read_back_nonempty (s : string) :
  strip s <> "" -> strip (universal_newlines (strip s)) <> "".
Proof.
  intros H. destruct (strip_head s) as [E | (c & u & E & Ec)]; [contradiction|].
  rewrite E. simpl universal_newlines. rewrite (not_space_not_CR c Ec).
  unfold strip. simpl lstrip. rewrite Ec. rewrite (rstrip_head c _ Ec). discriminate.
Qed.

Lemma universal_newlines_plain (s : string) :
  has_carriage_return s = false -> universal_newlines s = s.
Proof.
  induction s as [|c t IH]; [reflexivity|].
  simpl. destruct (Ascii.eqb c CR); simpl; [discriminate|].
  intros H. rewrite IH by exact H. reflexivity.
Qed.

Lemma lstrip_plain (s : string) :
  has_carriage_return s = false -> has_carriage_return (lstrip s) = false.
Proof.
  induction s as [|c t IH]; [reflexivity|].
  intros H. simpl lstrip. destruct (is_space c); [|exact H].
  apply IH. simpl in H. apply orb_false_elim in H. apply H.
Qed.

Lemma rstrip_plain (s : string) :
  has_carriage_return s = false -> has_carriage_return (rstrip s) = false.
Proof.
  induction s as [|c t IH]; [reflexivity|].
  intros H. simpl in H. apply orb_false_elim in H. destruct H as [Hc Ht].
  specialize (IH Ht). simpl rstrip. destruct (rstrip t) as [|d u].
  - destruct (is_space c); [reflexivity|]. simpl. rewrite Hc. reflexivity.
  - simpl. rewrite Hc. exact IH.
Qed.

Lemma read_back_plain (s : string) :
  has_carriage_return s = false -> strip (universal_newlines (strip s)) = strip s.
Proof.
  intros H. rewrite universal_newlines_plain; [apply strip_idempotent|].
  unfold strip. apply rstrip_plain, lstrip_plain, H.
Qed.

Lemma load_stored_cookie_total (w : World) : exists v, load_stored_cookie w = Returns v w.
Proof.
  unfold load_stored_cookie.
  destruct (cookie_file w) as [| |doc]; simpl; eauto.
  destruct doc; simpl; eauto.
Qed.

Lemma load_xsrf_token_total (w : World) : exists v, load_xsrf_token w = Returns v w.
Proof.
  unfold load_xsrf_token. destruct (xsrf_file w); simpl; eauto.
Qed.

Lemma load_total (w : World) : exists v, load w = Returns v w.
Proof.
  unfold load, bind.
  destruct (load_stored_cookie_total w) as [c ->].
  destruct (load_xsrf_token_total w) as [[t|] ->]; [|eexists; reflexivity].
  destruct (truthy c && negb (String.eqb t "")); eexists; reflexivity.
Qed.

Lemma load_unusable (w : World) :
  cookie_file w = Missing \/ cookie_file w = Corrupt
  \/ xsrf_file w = Missing \/ xsrf_file w = Corrupt ->
  load w = Returns None w.
Proof.
  intros H. unfold load, bind.
  destruct (load_stored_cookie_total w) as [c Hc]. rewrite Hc.
  unfold load_stored_cookie in Hc. unfold load_xsrf_token.
  destruct H as [H | [H | [H | H]]]; rewrite H in *; simpl in *.
  - injection Hc as <-. destruct (xsrf_file w); simpl; reflexivity.
  - injection Hc as <-. destruct (xsrf_file w); simpl; reflexivity.
  - reflexivity.
  - reflexivity.
Qed.

(** C8 (as amended). [save] writes the cookie joined with ["; XSRF-TOKEN=" ++
    token] and the token stripped of surrounding whitespace; a following
    [load] returns the combined cookie (not the one handed to [save]) and the
    token as the file gives it back: stripped on write, read in text mode (a
    carriage return comes back as a line feed) and stripped again, which for
    a token without carriage return is the token stripped. [load] never
    raises, and returns absent whenever either file is missing or unusable. *)
Theorem save_then_load (cookie xsrf_token : string) (w w0 : World) :
  strip xsrf_token <> "" ->
  (exists w1,
      save cookie xsrf_token w = Returns tt w1
      /\ cookie_file w1 = Holds (JObj [("Cookie", JStr (cookie ++ "; XSRF-TOKEN=" ++ xsrf_token))])
      /\ xsrf_file w1 = Holds (strip xsrf_token)
      /\ load w1 = Returns (Some (JStr (cookie ++ "; XSRF-TOKEN=" ++ xsrf_token),
                                 strip (universal_newlines (strip xsrf_token)))) w1)
  /\ (has_carriage_return xsrf_token = false ->
      strip (universal_newlines (strip xsrf_token)) = strip xsrf_token)
  /\ (exists v, load w0 = Returns v w0)
  /\ (cookie_file w0 = Missing \/ cookie_file w0 = Corrupt
      \/ xsrf_file w0 = Missing \/ xsrf_file w0 = Corrupt ->
      load w0 = Returns None w0).
Proof.
  intros Hx.
  split; [|split; [apply read_back_plain | split; [apply load_total | apply load_unusable]]].
  eexists. split; [reflexivity|]. split; [reflexivity|]. split; [reflexivity|].
  apply (load_of_files (cookie ++ "; XSRF-TOKEN=" ++ xsrf_token) (strip xsrf_token)).
  - reflexivity.
  - reflexivity.
  - apply combined_cookie_nonempty.
  - apply read_back_nonempty. exact Hx.
Qed.

Lemma save_then_load_witness :
  strip " xyz789 " <> ""
  /\ exists w1,
      save "EURES_JVSE_SESSIONID=abc123" " xyz789 " empty_world = Returns tt w1
      /\ cookie_file w1
         = Holds (JObj [("Cookie", JStr "EURES_JVSE_SESSIONID=abc123; XSRF-TOKEN= xyz789 ")])
      /\ xsrf_file w1 = Holds "xyz789"
      /\ load w1 = Returns (Some (JStr "EURES_JVSE_SESSIONID=abc123; XSRF-TOKEN= xyz789 ",
                                  "xyz789")) w1.
Proof.
  split; [discriminate|].
  apply (save_then_load "EURES_JVSE_SESSIONID=abc123" " xyz789 " empty_world empty_world).
  discriminate.
Defined.

Example carriage_return_is_read_as_line_feed :
  exists w1,
    save "c" (String "a" (String CR "b")) empty_world = Returns tt w1
    /\ load w1 = Returns (Some (JStr (String "c" ("; XSRF-TOKEN=" ++ String "a" (String CR "b"))),
                                String "a" (String LF "b"))) w1.
Proof. eexists. split; reflexivity. Qed.

Example no_break_space_is_stripped :
  strip (String "160" (String "a" (String "133" ""))) = "a".
Proof. reflexivity. Qed.

(** C8 (as stated) fails: the cookie read back is the combined value. *)
Lemma round_trip_fails : ~ round_trip.
Proof.
  intros H.
  destruct (H "EURES_JVSE_SESSIONID=abc123" "xyz789" empty_world) as (w1 & w2 & Hs & Hl);
    try discriminate; try reflexivity.
  vm_compute in Hs. injection Hs as <-. vm_compute in Hl. discriminate Hl.
Qed.

End CredentialStore.

(* ===================================================================== *)
(** ** Refresh and retry on 403 *)
(* ===================================================================== *)

Section Client.

Lemma reload_cookie_ok (w : World) logs later c x :
  browser w = logs :: later -> extract_cookies_from_logs logs = Ok (c, x) ->
  reload_cookie w = Returns (c, x) (persisted c x (set_browser later w)).
Proof.
  intros Hb He. unfold reload_cookie, bind, obtain_cookies_via_selenium.
  rewrite Hb, He. reflexivity.
Qed.

Lemma sendable_parts (c x : string) :
  sendable c x = true ->
  requests_accepts c = true /\ requests_accepts x = true
  /\ has_line_break c = false /\ has_line_break x = false.
Proof.
  unfold sendable, header_ok. intros H.
  apply andb_prop in H. destruct H as [Hc Hx].
  apply andb_prop in Hc. destruct Hc as [Hc1 Hc2].
  apply andb_prop in Hx. destruct Hx as [Hx1 Hx2].
  apply negb_true_iff in Hc2. apply negb_true_iff in Hx2. auto.
Qed.

Lemma requests_post_sent p c x (w : World) r rest :
  sendable c x = true -> upstream w = r :: rest ->
  requests_post p c x w = Returns r (log (EvPost p c x) (set_upstream rest w)).
Proof.
  intros Hs Hu. destruct (sendable_parts c x Hs) as (A1 & A2 & A3 & A4).
  unfold requests_post, send. rewrite A1, A2, A3, A4, Hu. reflexivity.
Qed.

Lemma requests_get_sent i c x (w : World) r rest :
  sendable c x = true -> referer_ok i = true -> upstream w = r :: rest ->
  requests_get i c x w = Returns r (log (EvGet i c x) (set_upstream rest w)).
Proof.
  intros Hs Hi Hu. destruct (sendable_parts c x Hs) as (A1 & A2 & A3 & A4).
  unfold requests_get, send. rewrite A1, A2, A3, A4, Hi, Hu. reflexivity.
Qed.

Lemma make_api_request_denied d c x p (w : World) r rest logs later c' x' :
  sendable c x = true ->
  upstream w = r :: rest -> status r = 403 ->
  browser w = logs :: later -> extract_cookies_from_logs logs = Ok (c', x') ->
  make_api_request (S d) c x p w
  = make_api_request d c' x' p
      (persisted c' x' (set_browser later (log (EvPost p c x) (set_upstream rest w)))).
Proof.
  intros Hv Hu Hs Hb He. simpl. unfold bind at 1.
  rewrite (requests_post_sent p c x w r rest Hv Hu), Hs.
  simpl. unfold bind at 1.
  erewrite reload_cookie_ok; [reflexivity | simpl; exact Hb | exact He].
Qed.

Lemma make_api_request_plain d c x p (w : World) r rest doc :
  sendable c x = true ->
  upstream w = r :: rest -> status r <> 403 -> body r = Some doc ->
  make_api_request (S d) c x p w
  = Returns (doc, c, x) (log (EvPost p c x) (set_upstream rest w)).
Proof.
  intros Hv Hu Hs Hb. simpl. unfold bind at 1.
  rewrite (requests_post_sent p c x w r rest Hv Hu).
  destruct (Z.eqb_spec (status r) 403); [contradiction|].
  unfold bind, response_json. rewrite Hb. reflexivity.
Qed.

Lemma get_job_details_denied d i c x (w : World) r rest logs later c' x' :
  sendable c x = true -> referer_ok i = true ->
  upstream w = r :: rest -> status r = 403 ->
  browser w = logs :: later -> extract_cookies_from_logs logs = Ok (c', x') ->
  get_job_details (S d) i c x w
  = get_job_details d i c' x'
      (persisted c' x' (set_browser later (log (EvGet i c x) (set_upstream rest w)))).
Proof.
  intros Hv Hi Hu Hs Hb He. simpl. unfold bind at 1.
  rewrite (requests_get_sent i c x w r rest Hv Hi Hu), Hs.
  simpl. unfold bind at 1.
  erewrite reload_cookie_ok; [reflexivity | simpl; exact Hb | exact He].
Qed.

Lemma get_job_details_plain d i c x (w : World) r rest :
  sendable c x = true -> referer_ok i = true ->
  upstream w = r :: rest -> status r <> 403 -> (ok r = true -> body r <> None) ->
  get_job_details (S d) i c x w
  = Returns (detail_of r) (log (EvGet i c x) (set_upstream rest w)).
Proof.
  intros Hv Hi Hu Hs Hb. simpl. unfold bind at 1.
  rewrite (requests_get_sent i c x w r rest Hv Hi Hu).
  destruct (Z.eqb_spec (status r) 403); [contradiction|].
  unfold detail_of. destruct (ok r); [|reflexivity].
  unfold response_json. destruct (body r); [reflexivity|]. exfalso. apply Hb; reflexivity.
Qed.

Lemma get_job_details_malformed d i c x (w : World) r rest :
  sendable c x = true -> referer_ok i = true ->
  upstream w = r :: rest -> status r <> 403 -> ok r = true -> body r = None ->
  get_job_details (S d) i c x w
  = Raises JSONDecodeError (log (EvGet i c x) (set_upstream rest w)).
Proof.
  intros Hv Hi Hu Hs Hok Hb. simpl. unfold bind at 1.
  rewrite (requests_get_sent i c x w r rest Hv Hi Hu).
  destruct (Z.eqb_spec (status r) 403); [contradiction|].
  rewrite Hok. unfold response_json. rewrite Hb. reflexivity.
Qed.

Lemma trace_persisted c x w :
  trace (persisted c x w) = trace w ++ refresh_events c x.
Proof.
  unfold persisted, refresh_events.
  cbn [trace log set_xsrf_file set_cookie_file]. rewrite <- !app_assoc. reflexivity.
Qed.

End Client.

Section Recovery.

Ltac world_facts :=
  cbn [trace upstream browser cookie_file xsrf_file persisted log set_upstream
       set_browser set_cookie_file set_xsrf_file];
  rewrite <- ?app_assoc.

(** C1. When the first attempt of a search or detail call is answered 403
    and the attempt after the refresh is answered 200 with a JSON body (both
    credentials, and the listing id of a detail call, being values the HTTP
    library sends), the call returns that body (the search also returns the
    new credential), the browser is launched exactly once, and both files
    hold the new credential before the second request is sent. *)
Theorem refresh_once_on_denial (depth : nat) (cookie xsrf_token : string) (page : Z)
    (job_id : json) (w : World) (r1 r2 : Response) (rest : list Response)
    (logs : list log_entry) (later : list (list log_entry)) (c' x' : string) (doc : json) :
  (2 <= depth)%nat ->
  sendable cookie xsrf_token = true -> sendable c' x' = true -> referer_ok job_id = true ->
  upstream w = r1 :: r2 :: rest -> status r1 = 403 -> status r2 = 200 -> body r2 = Some doc ->
  browser w = logs :: later -> extract_cookies_from_logs logs = Ok (c', x') ->
  (exists w',
      make_api_request depth cookie xsrf_token page w = Returns (doc, c', x') w'
      /\ trace w' = trace w ++ EvPost page cookie xsrf_token
                               :: refresh_events c' x' ++ [EvPost page c' x']
      /\ cookie_file w' = Holds (JObj [("Cookie", JStr (c' ++ "; XSRF-TOKEN=" ++ x'))])
      /\ xsrf_file w' = Holds (strip x')
      /\ upstream w' = rest)
  /\ (exists w',
      get_job_details depth job_id cookie xsrf_token w = Returns doc w'
      /\ trace w' = trace w ++ EvGet job_id cookie xsrf_token
                               :: refresh_events c' x' ++ [EvGet job_id c' x']
      /\ cookie_file w' = Holds (JObj [("Cookie", JStr (c' ++ "; XSRF-TOKEN=" ++ x'))])
      /\ xsrf_file w' = Holds (strip x')
      /\ upstream w' = rest)
  /\ count is_acquire (EvPost page cookie xsrf_token
                         :: refresh_events c' x' ++ [EvPost page c' x']) = 1%nat
  /\ count is_acquire (EvGet job_id cookie xsrf_token
                         :: refresh_events c' x' ++ [EvGet job_id c' x']) = 1%nat.
Proof.
  intros Hd Hv Hv' Hi Hu H1 H2 Hb Hbr He.
  destruct depth as [|[|d]]; try lia.
  assert (H2' : status r2 <> 403) by (rewrite H2; discriminate).
  split; [|split; [|split; reflexivity]].
  - rewrite (make_api_request_denied _ _ _ _ _ r1 (r2 :: rest) logs later c' x') by assumption.
    rewrite (make_api_request_plain _ _ _ _ _ r2 rest doc) by (try assumption; reflexivity).
    eexists. split; [reflexivity|]. world_facts. repeat split; reflexivity.
  - rewrite (get_job_details_denied _ _ _ _ _ r1 (r2 :: rest) logs later c' x') by assumption.
    rewrite (get_job_details_plain _ _ _ _ _ r2 rest)
      by (try assumption; try reflexivity; rewrite Hb; discriminate).
    unfold detail_of, ok. rewrite H2, Hb. simpl.
    eexists. split; [reflexivity|]. world_facts. repeat split; reflexivity.
Qed.

Lemma refresh_once_on_denial_witness :
  exists w',
    make_api_request 2 "stale" "old" 1
      (world [denied; search_page 0 []] [good_log "abc123" "xyz789"] Missing Missing [] [] [])
    = Returns (JObj [("numberRecords", JInt 0); ("jvs", JArr [])],
               "EURES_JVSE_SESSIONID=abc123", "xyz789") w'
    /\ trace w' = [] ++ EvPost 1 "stale" "old"
                     :: refresh_events "EURES_JVSE_SESSIONID=abc123" "xyz789"
                     ++ [EvPost 1 "EURES_JVSE_SESSIONID=abc123" "xyz789"]
    /\ cookie_file w'
       = Holds (JObj [("Cookie", JStr "EURES_JVSE_SESSIONID=abc123; XSRF-TOKEN=xyz789")])
    /\ xsrf_file w' = Holds "xyz789"
    /\ upstream w' = [].
Proof.
  refine (proj1 (refresh_once_on_denial 2 "stale" "old" 1 JNull
            (world [denied; search_page 0 []] [good_log "abc123" "xyz789"]
                     Missing Missing [] [] [])
            denied (search_page 0 []) [] (good_log "abc123" "xyz789") []
            "EURES_JVSE_SESSIONID=abc123" "xyz789"
            (JObj [("numberRecords", JInt 0); ("jvs", JArr [])]) _ _ _ _ _ _ _ _ _ _));
    try reflexivity; try apply le_n.
Defined.

Example token_with_leading_space_is_not_sent :
  exists w',
    make_api_request 2 "stale" "old" 1
      (world [denied; search_page 0 []]
             [[session_entry "s1"; set_cookie_entry (JStr "XSRF-TOKEN= t1; Path=/")]]
             Missing Missing [] [] [])
    = Raises InvalidHeader w'
    /\ count is_post (trace w') = 1%nat
    /\ xsrf_file w' = Holds "t1".
Proof. eexists. split; [reflexivity|]. split; reflexivity. Qed.

End Recovery.

Section Retry.

Lemma count_app (p : Event -> bool) (l1 l2 : list Event) :
  count p (l1 ++ l2) = (count p l1 + count p l2)%nat.
Proof. unfold count. rewrite filter_app, length_app. reflexivity. Qed.

Lemma last_cons {A} (a d : A) (l : list A) : last (a :: l) d = last l a.
Proof.
  revert a d. induction l as [|b l IH]; intros a d; [reflexivity|].
  change (last (b :: l) d = last (b :: l) a). rewrite (IH b d), (IH b a). reflexivity.
Qed.

Lemma retry_trace_counts (request : string -> string -> Event) (p : Event -> bool)
    (per_request per_refresh : nat) (creds : list (string * string)) :
  (forall a b, count p [request a b] = per_request) ->
  (forall a b, count p (refresh_events a b) = per_refresh) ->
  forall c x,
    count p (retry_trace request c x creds)
    = (per_request + List.length creds * (per_request + per_refresh))%nat.
Proof.
  intros Hq Hf. induction creds as [|[c' x'] creds IH]; intros c x.
  - simpl retry_trace. rewrite Hq. simpl. lia.
  - change (retry_trace request c x ((c', x') :: creds))
      with ([request c x] ++ refresh_events c' x' ++ retry_trace request c' x' creds).
    rewrite (count_app p [request c x]), (count_app p (refresh_events c' x')), Hq, Hf, IH.
    simpl List.length. lia.
Qed.

Lemma search_refresh_chain (denials : list Response) :
  forall (sessions : list (list log_entry)) (creds : list (string * string))
         (depth : nat) (c x : string) (p : Z) (w : World) (r : Response)
         (rest : list Response) (later : list (list log_entry)) (doc : json),
  Forall (fun d => status d = 403) denials -> Forall2 yields sessions creds ->
  List.length denials = List.length creds ->
  sendable c x = true -> Forall (fun cr => sendable (fst cr) (snd cr) = true) creds ->
  upstream w = denials ++ r :: rest -> browser w = sessions ++ later ->
  status r <> 403 -> body r = Some doc -> (List.length denials < depth)%nat ->
  exists w',
    make_api_request depth c x p w = Returns (doc, fst (last creds (c, x)), snd (last creds (c, x))) w'
    /\ trace w' = trace w ++ retry_trace (EvPost p) c x creds
    /\ upstream w' = rest /\ browser w' = later.
Proof.
  induction denials as [|d0 denials IH];
    intros sessions creds depth c x p w r rest later doc Hden Hy Hlen Hv Hvs Hu Hb Hs Hdoc Hdepth.
  - destruct creds; [|discriminate]. inversion Hy; subst.
    destruct depth as [|d]; [simpl in Hdepth; lia|].
    rewrite (make_api_request_plain _ _ _ _ _ r rest doc) by assumption.
    exists (log (EvPost p c x) (set_upstream rest w)).
    repeat split; try reflexivity. exact Hb.
  - destruct creds as [|[c' x'] creds]; [discriminate|].
    inversion Hy as [|logs cr sessions' creds' Hy1 Hy2]; subst.
    inversion Hden as [|? ? Hd0 Hden']; subst.
    inversion Hvs as [|? ? Hv' Hvs']; subst. simpl in Hv'.
    destruct depth as [|d]; [simpl in Hdepth; lia|].
    rewrite (make_api_request_denied _ _ _ _ _ d0 (denials ++ r :: rest) logs
               (sessions' ++ later) c' x') by assumption.
    destruct (IH sessions' creds d c' x' p
                (persisted c' x' (set_browser (sessions' ++ later)
                   (log (EvPost p c x) (set_upstream (denials ++ r :: rest) w))))
                r rest later doc) as (w' & Hr & Ht & Hu' & Hb');
      try assumption; try reflexivity.
    { simpl in Hlen. lia. }
    { simpl in Hdepth. lia. }
    exists w'.
    rewrite last_cons. split; [exact Hr|].
    split; [|split; assumption].
    rewrite Ht, trace_persisted. simpl. rewrite <- !app_assoc. reflexivity.
Qed.

Lemma detail_refresh_chain (denials : list Response) :
  forall (sessions : list (list log_entry)) (creds : list (string * string))
         (depth : nat) (i : json) (c x : string) (w : World) (r : Response)
         (rest : list Response) (later : list (list log_entry)),
  Forall (fun d => status d = 403) denials -> Forall2 yields sessions creds ->
  List.length denials = List.length creds ->
  sendable c x = true -> Forall (fun cr => sendable (fst cr) (snd cr) = true) creds ->
  referer_ok i = true ->
  upstream w = denials ++ r :: rest -> browser w = sessions ++ later ->
  status r <> 403 -> (ok r = true -> body r <> None) -> (List.length denials < depth)%nat ->
  exists w',
    get_job_details depth i c x w = Returns (detail_of r) w'
    /\ trace w' = trace w ++ retry_trace (EvGet i) c x creds
    /\ upstream w' = rest /\ browser w' = later.
Proof.
  induction denials as [|d0 denials IH];
    intros sessions creds depth i c x w r rest later Hden Hy Hlen Hv Hvs Hi Hu Hb Hs Hdoc Hdepth.
  - destruct creds; [|discriminate]. inversion Hy; subst.
    destruct depth as [|d]; [simpl in Hdepth; lia|].
    rewrite (get_job_details_plain _ _ _ _ _ r rest) by assumption.
    exists (log (EvGet i c x) (set_upstream rest w)).
    repeat split; try reflexivity. exact Hb.
  - destruct creds as [|[c' x'] creds]; [discriminate|].
    inversion Hy as [|logs cr sessions' creds' Hy1 Hy2]; subst.
    inversion Hden as [|? ? Hd0 Hden']; subst.
    inversion Hvs as [|? ? Hv' Hvs']; subst. simpl in Hv'.
    destruct depth as [|d]; [simpl in Hdepth; lia|].
    rewrite (get_job_details_denied _ _ _ _ _ d0 (denials ++ r :: rest) logs
               (sessions' ++ later) c' x') by assumption.
    destruct (IH sessions' creds d i c' x'
                (persisted c' x' (set_browser (sessions' ++ later)
                   (log (EvGet i c x) (set_upstream (denials ++ r :: rest) w))))
                r rest later) as (w' & Hr & Ht & Hu' & Hb');
      try assumption; try reflexivity.
    { simpl in Hlen. lia. }
    { simpl in Hdepth. lia. }
    exists w'.
    split; [exact Hr|].
    split; [|split; assumption].
    rewrite Ht, trace_persisted. simpl. rewrite <- !app_assoc. reflexivity.
Qed.

(** C2 (as amended). Every 403 triggers one acquisition, one save of each
    file and one more attempt carrying the credential just acquired. When a
    call is answered by [n] refusals in a row and then by a response that is
    not a 403 and carries a JSON body, every acquisition yields a credential,
    every credential (and the listing id of a detail call) is a value the
    HTTP library sends, and the interpreter allows [n + 1] nested calls, the
    call launches the browser [n] times, sends [n + 1] requests and returns
    the last response's document (the search with the last credential
    acquired). There is no bound of one. *)
Theorem refresh_per_denial (denials : list Response) (sessions : list (list log_entry))
    (creds : list (string * string)) (depth : nat) (job_id : json) (c x : string) (p : Z)
    (w : World) (r : Response) (rest : list Response) (later : list (list log_entry))
    (doc : json) :
  Forall (fun d => status d = 403) denials -> Forall2 yields sessions creds ->
  List.length denials = List.length creds ->
  sendable c x = true -> Forall (fun cr => sendable (fst cr) (snd cr) = true) creds ->
  referer_ok job_id = true ->
  upstream w = denials ++ r :: rest -> browser w = sessions ++ later ->
  status r <> 403 -> ok r = true -> body r = Some doc ->
  (List.length denials < depth)%nat ->
  (exists w',
      make_api_request depth c x p w
        = Returns (doc, fst (last creds (c, x)), snd (last creds (c, x))) w'
      /\ trace w' = trace w ++ retry_trace (EvPost p) c x creds
      /\ upstream w' = rest /\ browser w' = later)
  /\ (exists w',
      get_job_details depth job_id c x w = Returns doc w'
      /\ trace w' = trace w ++ retry_trace (EvGet job_id) c x creds
      /\ upstream w' = rest /\ browser w' = later)
  /\ count is_acquire (retry_trace (EvPost p) c x creds) = List.length denials
  /\ count is_post (retry_trace (EvPost p) c x creds) = S (List.length denials)
  /\ count is_save (retry_trace (EvPost p) c x creds) = (2 * List.length denials)%nat
  /\ count is_acquire (retry_trace (EvGet job_id) c x creds) = List.length denials
  /\ count is_get (retry_trace (EvGet job_id) c x creds) = S (List.length denials)
  /\ count is_save (retry_trace (EvGet job_id) c x creds) = (2 * List.length denials)%nat.
Proof.
  intros Hden Hy Hlen Hv Hvs Hi Hu Hb Hs Hok Hdoc Hdepth. split; [|split].
  - apply (search_refresh_chain denials sessions creds depth c x p w r rest later doc);
      assumption.
  - replace doc with (detail_of r) by (unfold detail_of; rewrite Hok, Hdoc; reflexivity).
    apply (detail_refresh_chain denials sessions creds depth job_id c x w r rest later);
      try assumption.
    intros _. rewrite Hdoc. discriminate.
  - rewrite Hlen.
    rewrite (retry_trace_counts (EvPost p) is_acquire 0 1), (retry_trace_counts (EvPost p) is_post 1 0),
      (retry_trace_counts (EvPost p) is_save 0 2), (retry_trace_counts (EvGet job_id) is_acquire 0 1),
      (retry_trace_counts (EvGet job_id) is_get 1 0), (retry_trace_counts (EvGet job_id) is_save 0 2);
      try (intros; reflexivity).
    repeat split; lia.
Qed.

Lemma refresh_per_denial_witness :
  exists w',
    make_api_request 4 "stale" "old" 1 thrice_denied
      = Returns (JStr "doc", "EURES_JVSE_SESSIONID=s3", "t3") w'
    /\ trace w' = trace thrice_denied
                  ++ retry_trace (EvPost 1) "stale" "old"
                       [("EURES_JVSE_SESSIONID=s1", "t1"); ("EURES_JVSE_SESSIONID=s2", "t2");
                        ("EURES_JVSE_SESSIONID=s3", "t3")]
    /\ upstream w' = [] /\ browser w' = [].
Proof.
  refine (proj1 (refresh_per_denial [denied; denied; denied]
            [good_log "s1" "t1"; good_log "s2" "t2"; good_log "s3" "t3"]
            [("EURES_JVSE_SESSIONID=s1", "t1"); ("EURES_JVSE_SESSIONID=s2", "t2");
             ("EURES_JVSE_SESSIONID=s3", "t3")]
            4 JNull "stale" "old" 1 thrice_denied (answer (JStr "doc")) [] [] (JStr "doc")
            _ _ _ _ _ _ _ _ _ _ _ _)); try reflexivity.
  - repeat constructor.
  - repeat constructor.
  - repeat constructor.
  - discriminate.
  - repeat constructor.
Defined.

(** C2 (as stated) fails: three refusals in a row give three refreshes within
    one call. *)
Lemma at_most_one_refresh_fails : ~ at_most_one_refresh.
Proof.
  intros H. specialize (H 4%nat "stale" "old" 1 thrice_denied).
  vm_compute in H. lia.
Qed.

End Retry.

(* ===================================================================== *)
(** ** The crawl *)
(* ===================================================================== *)

Section Ingestion.


Lemma bind_returns {A B} (m : M A) (k : A -> M B) (w w' : World) (a : A) :
  m w = Returns a w' -> bind m k w = k a w'.
Proof. intros H. unfold bind. rewrite H. reflexivity. Qed.

Lemma for_each_two {A S} (body : A -> S -> M S) (x1 x2 : A) (s0 s1 s2 : S)
    (w0 w1 w2 : World) :
  body x1 s0 w0 = Returns s1 w1 -> body x2 s1 w1 = Returns s2 w2 ->
  for_each [x1; x2] body s0 w0 = Returns s2 w2.
Proof.
  intros H1 H2. simpl. rewrite (bind_returns _ _ _ _ _ H1), (bind_returns _ _ _ _ _ H2).
  reflexivity.
Qed.

Lemma bindable_ok (v : json) : bindable v = true -> exists c, bind_param v = Ok c.
Proof. unfold bindable. destruct (bind_param v); [eauto | discriminate]. Qed.

Lemma store_job_ok (depth : nat) (c x : string) (job : json) (w : World)
    (r : Response) (rest : list Response) :
  (1 <= depth)%nat -> storable job = true -> sendable c x = true -> fetchable job = true ->
  upstream w = r :: rest -> answered r ->
  store_job depth c x job w
  = Returns tt (log (EvUpsert (listing_row (engine w) job (detail_of r)))
                  (set_table (insert_or_replace (listing_row (engine w) job (detail_of r))
                                (table w))
                     (log (EvGet (listing_id job) c x) (set_upstream rest w)))).
Proof.
  intros Hd Hst Hv Hf Hu [Hs Hb].
  destruct depth as [|d]; [lia|].
  destruct job as [| | | | | |m]; try discriminate.
  unfold storable, SCALAR_COLUMNS in Hst. simpl forallb in Hst.
  repeat (apply andb_prop in Hst; destruct Hst as [?H Hst]).
  repeat match goal with
         | H : bindable _ = true |- _ => apply bindable_ok in H; destruct H as [? ?H]
         end.
  unfold fetchable, listing_id in Hf.
  unfold listing_row, listing_id, bound.
  unfold member in *. simpl get in *.
  unfold store_job. simpl get. unfold lift at 1 2 3 4 5 6 7 8 9 10 11 12 13 14 15.
  unfold bind, ret.
  rewrite (get_job_details_plain _ _ _ _ _ r rest) by assumption.
  unfold execute_insert_or_replace, bind.
  repeat match goal with
         | H : bind_param _ = Ok _ |- _ => rewrite H; clear H
         end.
  reflexivity.
Qed.

Lemma store_job_malformed (depth : nat) (c x : string) (m : list (string * json)) (w : World)
    (r : Response) (rest : list Response) :
  (1 <= depth)%nat -> sendable c x = true -> fetchable (JObj m) = true ->
  upstream w = r :: rest -> status r <> 403 -> ok r = true -> body r = None ->
  store_job depth c x (JObj m) w
  = Raises JSONDecodeError (log (EvGet (listing_id (JObj m)) c x) (set_upstream rest w)).
Proof.
  intros Hd Hv Hf Hu Hs Hok Hb.
  destruct depth as [|d]; [lia|].
  unfold fetchable, listing_id in Hf. unfold listing_id.
  unfold member in *. simpl get in *.
  unfold store_job. simpl get. unfold lift at 1 2 3 4 5 6 7 8 9 10 11 12 13 14 15.
  unfold bind, ret.
  rewrite (get_job_details_malformed _ _ _ _ _ r rest) by assumption.
  reflexivity.
Qed.

Lemma get_ids_app (l1 l2 : list Event) : get_ids (l1 ++ l2) = get_ids l1 ++ get_ids l2.
Proof. unfold get_ids. apply flat_map_app. Qed.

Lemma page_effects_app evs1 evs2 p1 p2 c1 c2 jobs1 jobs2 :
  page_effects evs1 p1 c1 jobs1 -> page_effects evs2 p2 c2 jobs2 ->
  page_effects (evs1 ++ evs2) (p1 + p2) (c1 + c2) (jobs1 ++ jobs2).
Proof.
  intros (A1 & A2 & A3 & A4 & A5 & A6) (B1 & B2 & B3 & B4 & B5 & B6).
  unfold page_effects. rewrite !count_app, get_ids_app, map_app, length_app.
  rewrite A1, A2, A3, A4, A5, A6, B1, B2, B3, B4, B5, B6. repeat split; reflexivity.
Qed.

Lemma job_events_effects (eng : Engine) (c x : string) (jobs : list json) :
  forall ds, List.length ds = List.length jobs ->
    page_effects (job_events eng c x jobs ds) 0 0 jobs.
Proof.
  induction jobs as [|job jobs IH]; intros ds Hlen.
  - repeat split.
  - destruct ds as [|r ds]; [discriminate|].
    change (job_events eng c x (job :: jobs) (r :: ds))
      with ([EvGet (listing_id job) c x; EvUpsert (listing_row eng job (detail_of r))]
              ++ job_events eng c x jobs ds).
    apply (page_effects_app _ _ 0 0 0 0 [job] jobs); [repeat split|].
    apply IH. simpl in Hlen. lia.
Qed.

Lemma page_events_effects (eng : Engine) (page : Z) (c x : string) (jobs : list json)
    (ds : list Response) :
  List.length ds = List.length jobs ->
  page_effects (page_events eng page c x jobs ds) 1 1 jobs.
Proof.
  intros Hlen. unfold page_events.
  change (EvPost page c x :: job_events eng c x jobs ds ++ [EvCommit; EvSleep 1])
    with ([EvPost page c x] ++ job_events eng c x jobs ds ++ [EvCommit; EvSleep 1]).
  apply (page_effects_app _ _ 1 0 0 1 [] jobs); [repeat split|].
  rewrite <- (app_nil_r jobs) at 2.
  apply (page_effects_app _ _ 0 0 0 1 jobs []); [|repeat split].
  apply job_events_effects. exact Hlen.
Qed.

Lemma jobs_loop (depth : nat) (c x : string) (jobs : list json) :
  forall (ds rest : list Response) (w : World),
  (1 <= depth)%nat -> sendable c x = true ->
  Forall (fun job => storable job = true) jobs ->
  Forall (fun job => fetchable job = true) jobs -> Forall answered ds ->
  List.length ds = List.length jobs -> upstream w = ds ++ rest ->
  exists w',
    for_each jobs (fun job _ => store_job depth c x job) tt w = Returns tt w'
    /\ trace w' = trace w ++ job_events (engine w) c x jobs ds
    /\ upstream w' = rest /\ engine w' = engine w /\ durable w' = durable w.
Proof.
  induction jobs as [|job jobs IH]; intros ds rest w Hd Hv Hj Hf Ha Hlen Hu.
  - destruct ds; [|discriminate]. exists w. simpl.
    rewrite app_nil_r. repeat split; try reflexivity. exact Hu.
  - destruct ds as [|r ds]; [discriminate|].
    inversion Hj as [|? ? Hj1 Hj2]; subst. inversion Ha as [|? ? Ha1 Ha2]; subst.
    inversion Hf as [|? ? Hf1 Hf2]; subst.
    pose proof (store_job_ok depth c x job w r (ds ++ rest) Hd Hj1 Hv Hf1 Hu Ha1) as Hrow.
    simpl for_each. unfold bind at 1. rewrite Hrow.
    destruct (IH ds rest
                (log (EvUpsert (listing_row (engine w) job (detail_of r)))
                   (set_table (insert_or_replace (listing_row (engine w) job (detail_of r))
                                 (table w))
                      (log (EvGet (listing_id job) c x) (set_upstream (ds ++ rest) w)))))
      as (w' & Hr & Ht & Hu' & He & Hdu); try assumption; try reflexivity.
    { simpl in Hlen. lia. }
    exists w'.
    split; [exact Hr|]. split; [|split; [exact Hu' | split; [exact He | exact Hdu]]].
    rewrite Ht. cbn [trace log set_table set_upstream engine]. rewrite <- !app_assoc. reflexivity.
Qed.

Lemma crawl_page_ok (depth : nat) (page : Z) (c x : string) (results jobs : list json)
    (w : World) (p : Response) (ds rest : list Response) :
  (1 <= depth)%nat -> sendable c x = true ->
  upstream w = p :: ds ++ rest -> serves p jobs ->
  Forall (fun job => storable job = true) jobs ->
  Forall (fun job => fetchable job = true) jobs -> Forall answered ds ->
  List.length ds = List.length jobs ->
  exists w',
    crawl_page depth page (c, x, results) w = Returns (c, x, results ++ jobs) w'
    /\ trace w' = trace w ++ page_events (engine w) page c x jobs ds
    /\ upstream w' = rest /\ engine w' = engine w /\ durable w' = table w'.
Proof.
  intros Hd Hv Hu (Hs & m & Hb & Hit) Hj Hf Ha Hlen.
  destruct depth as [|d]; [lia|].
  unfold crawl_page. unfold bind at 1.
  rewrite (make_api_request_plain _ _ _ _ _ p (ds ++ rest) (JObj m)) by assumption.
  simpl get. unfold lift at 1. unfold bind at 1. unfold ret at 1.
  rewrite Hit. unfold lift at 1. unfold bind at 1. unfold ret at 1.
  destruct (jobs_loop (S d) c x jobs ds rest
              (log (EvPost page c x) (set_upstream (ds ++ rest) w)))
    as (w1 & Hr & Ht & Hu1 & He & Hdu); try assumption; try reflexivity.
  unfold bind at 1. rewrite Hr.
  exists (log (EvSleep 1) (log EvCommit (set_durable (table w1) w1))).
  split; [reflexivity|]. split; [|split; [exact Hu1 | split; [exact He | reflexivity]]].
  cbn [trace log set_durable]. rewrite Ht.
  cbn [trace log set_upstream engine]. unfold page_events.
  rewrite <- !app_assoc. reflexivity.
Qed.

(** C4 (as amended). When the first search response reports a total that
    makes two pages (60 records at 50 per page), the credential is one the
    HTTP library sends, no response is a 403, the two page responses are JSON
    objects listing [jobs1] and [jobs2], every listing binds and has an id fit
    for the [Referer], and every detail response is either an error status or
    JSON, [handle_pagination] sends exactly 3 search requests (the probe of
    page 1, then pages 1 and 2), exactly one detail request per listing, in
    order, upserts each listing once and commits exactly twice. *)
Theorem two_page_crawl (depth : nat) (c x : string) (w : World) (total : Z)
    (probe p1 p2 : Response) (m0 : list (string * json))
    (jobs1 jobs2 : list json) (ds1 ds2 rest : list Response) :
  (1 <= depth)%nat -> sendable c x = true ->
  upstream w = probe :: (p1 :: ds1) ++ (p2 :: ds2) ++ rest ->
  status probe <> 403 -> body probe = Some (JObj m0) ->
  assoc "numberRecords" m0 = Some (JInt total) -> total_pages total = 2 ->
  serves p1 jobs1 -> serves p2 jobs2 ->
  Forall (fun job => storable job = true) (jobs1 ++ jobs2) ->
  Forall (fun job => fetchable job = true) (jobs1 ++ jobs2) ->
  Forall answered (ds1 ++ ds2) ->
  List.length ds1 = List.length jobs1 -> List.length ds2 = List.length jobs2 ->
  exists w' evs,
    handle_pagination depth c x w = Returns (jobs1 ++ jobs2) w'
    /\ trace w' = trace w ++ evs
    /\ evs = EvPost 1 c x :: page_events (engine w) 1 c x jobs1 ds1
                          ++ page_events (engine w) 2 c x jobs2 ds2
    /\ count is_post evs = 3%nat
    /\ count is_commit evs = 2%nat
    /\ get_ids evs = map listing_id (jobs1 ++ jobs2)
    /\ count is_get evs = List.length (jobs1 ++ jobs2)
    /\ count is_upsert evs = List.length (jobs1 ++ jobs2)
    /\ count is_acquire evs = 0%nat
    /\ upstream w' = rest.
Proof.
  intros Hd Hv Hu Hs Hb Hn Hp S1 S2 Hj Hf Ha L1 L2.
  apply Forall_app in Hj. destruct Hj as [Hj1 Hj2].
  apply Forall_app in Hf. destruct Hf as [Hf1 Hf2].
  apply Forall_app in Ha. destruct Ha as [Ha1 Ha2].
  destruct depth as [|d]; [lia|].
  unfold handle_pagination. unfold bind at 1.
  rewrite (make_api_request_plain _ _ _ _ _ probe ((p1 :: ds1) ++ (p2 :: ds2) ++ rest) (JObj m0))
    by assumption.
  simpl get. rewrite Hn. unfold lift at 1. unfold bind at 1. unfold ret at 1.
  simpl as_int. unfold lift at 1. unfold bind at 1. unfold ret at 1.
  rewrite Hp. change (range_from_1 2) with [1; 2].
  destruct (crawl_page_ok (S d) 1 c x [] jobs1
              (log (EvPost 1 c x) (set_upstream ((p1 :: ds1) ++ (p2 :: ds2) ++ rest) w))
              p1 ds1 ((p2 :: ds2) ++ rest))
    as (w1 & Hr1 & Ht1 & Hu1 & He1 & _); try assumption; try reflexivity.
  destruct (crawl_page_ok (S d) 2 c x ([] ++ jobs1) jobs2 w1 p2 ds2 rest)
    as (w2 & Hr2 & Ht2 & Hu2 & He2 & _); try assumption; try reflexivity.
  rewrite (bind_returns _ _ _ _ _
             (for_each_two (crawl_page (S d)) 1 2 _ _ _ _ _ _ Hr1 Hr2)).
  unfold ret.
  exists w2, ([EvPost 1 c x] ++ page_events (engine w) 1 c x jobs1 ds1
                             ++ page_events (engine w) 2 c x jobs2 ds2).
  split; [reflexivity|]. split.
  { rewrite Ht2, Ht1, He1. cbn [trace log set_upstream engine].
    rewrite <- !app_assoc. reflexivity. }
  split; [reflexivity|].
  assert (He : page_effects ([EvPost 1 c x] ++ page_events (engine w) 1 c x jobs1 ds1
                               ++ page_events (engine w) 2 c x jobs2 ds2)
                 (1 + (1 + 1)) (0 + (1 + 1)) ([] ++ jobs1 ++ jobs2)).
  { apply page_effects_app; [repeat split|].
    apply page_effects_app; apply page_events_effects; assumption. }
  destruct He as (E1 & E2 & E3 & E4 & E5 & E6).
  repeat split; assumption.
Qed.

Ltac crawl_side :=
  repeat match goal with
         | |- Forall _ _ => constructor
         | |- answered _ => split
         | |- serves _ _ => split; [| eexists; split; reflexivity]
         | |- _ <> _ => simpl; discriminate
         | |- (_ <= _)%nat => apply le_n
         | |- _ = _ => reflexivity
         | |- _ -> _ => simpl; intros; discriminate
         end.

Lemma two_page_crawl_witness :
  exists w' evs,
    handle_pagination 1 "c" "x" sixty_records
      = Returns ([listing "a" "A"; listing "b" "B"] ++ [listing "c" "C"]) w'
    /\ trace w' = trace sixty_records ++ evs
    /\ evs = EvPost 1 "c" "x"
               :: page_events plain_engine 1 "c" "x" [listing "a" "A"; listing "b" "B"]
                    [answer (JStr "da"); mkResponse 500 None]
               ++ page_events plain_engine 2 "c" "x" [listing "c" "C"] [answer (JStr "dc")]
    /\ count is_post evs = 3%nat
    /\ count is_commit evs = 2%nat
    /\ get_ids evs = map listing_id ([listing "a" "A"; listing "b" "B"] ++ [listing "c" "C"])
    /\ count is_get evs = List.length ([listing "a" "A"; listing "b" "B"] ++ [listing "c" "C"])
    /\ count is_upsert evs
       = List.length ([listing "a" "A"; listing "b" "B"] ++ [listing "c" "C"])
    /\ count is_acquire evs = 0%nat
    /\ upstream w' = [].
Proof.
  refine (two_page_crawl 1 "c" "x" sixty_records 60
            (search_page 60 []) (search_page 60 [listing "a" "A"; listing "b" "B"])
            (search_page 60 [listing "c" "C"])
            [("numberRecords", JInt 60); ("jvs", JArr [])]
            [listing "a" "A"; listing "b" "B"] [listing "c" "C"]
            [answer (JStr "da"); mkResponse 500 None] [answer (JStr "dc")] []
            _ _ _ _ _ _ _ _ _ _ _ _ _ _); crawl_side.
Defined.

(** C4 (as stated) fails: page 1 is requested twice, so 60 records make 3
    search requests. *)
Lemma sixty_records_two_searches_fails : ~ sixty_records_two_searches.
Proof.
  intros H.
  assert (E : count is_post
                (trace (world_of (handle_pagination 1 "c" "x" sixty_records)))
              = (count is_post (trace sixty_records) + 2)%nat).
  { apply (H 1%nat "c" "x" sixty_records _ (search_page 60 [])
             (tl (upstream sixty_records))
             [("numberRecords", JInt 60); ("jvs", JArr [])]
             ([listing "a" "A"; listing "b" "B"] ++ [listing "c" "C"])).
    - reflexivity.
    - simpl. discriminate.
    - reflexivity.
    - reflexivity.
    - vm_compute. reflexivity. }
  vm_compute in E. discriminate E.
Qed.

(** C9 (as stated) fails: a 200 response whose body is not JSON raises. *)
Lemma failed_detail_is_absent_fails : ~ failed_detail_is_absent.
Proof.
  intros H.
  destruct (H 1%nat (JStr "a") "c" "x"
              (world [mkResponse 200 None] [] Missing Missing [] [] [])
              (mkResponse 200 None) [] (le_n 1) eq_refl ltac:(discriminate)
              (or_intror (or_intror eq_refl))) as [w' Hw].
  vm_compute in Hw. discriminate Hw.
Qed.

Example malformed_detail_aborts_the_page :
  exists w',
    handle_pagination 1 "c" "x" malformed_detail = Raises JSONDecodeError w'
    /\ count is_upsert (trace w') = 0%nat /\ count is_commit (trace w') = 0%nat
    /\ durable w' = [].
Proof. eexists. split; [vm_compute; reflexivity|]. repeat split. Qed.

Example not_modified_detail_raises :
  get_job_details 1 (JStr "a") "c" "x" (world [mkResponse 304 None] [] Missing Missing [] [] [])
  = Raises JSONDecodeError
      (world [] [] Missing Missing [] [] [EvGet (JStr "a") "c" "x"]).
Proof. reflexivity. Qed.

(** C3. [get_job_details] returns the document alone: the credential it
    acquired on a 403 is lost to [handle_pagination], whose next detail request
    carries the stale one again and triggers one more acquisition, whereas
    [make_api_request] hands the new credential back and the next search
    reuses it. *)
Theorem detail_refresh_not_propagated :
  filter is_get (trace (world_of (handle_pagination 2 "stale" "old" stale_session)))
  = [EvGet (JStr "a") "stale" "old";
     EvGet (JStr "a") "EURES_JVSE_SESSIONID=s1" "t1";
     EvGet (JStr "b") "stale" "old";
     EvGet (JStr "b") "EURES_JVSE_SESSIONID=s2" "t2"]
  /\ count is_acquire (trace (world_of (handle_pagination 2 "stale" "old" stale_session)))
     = 2%nat
  /\ filter is_post
       (trace (world_of
          (for_each [1; 2] (fun page st =>
               bind (make_api_request 2 (fst st) (snd st) page)
                    (fun r => ret (snd (fst r), snd r)))
             ("stale", "old")
             (world [denied; answer JNull; answer JNull] [good_log "s1" "t1"]
                      Missing Missing [] [] []))))
     = [EvPost 1 "stale" "old";
        EvPost 1 "EURES_JVSE_SESSIONID=s1" "t1";
        EvPost 2 "EURES_JVSE_SESSIONID=s1" "t1"].
Proof. repeat split. Qed.

(** C9 (as amended). For the detail fetch of a listing that binds, sent
    with a credential and an id the HTTP library accepts: a response with a
    status in 400..599 other than 403 makes [get_job_details] return [None],
    the listing is upserted with its details column holding
    [json.dumps(None)] and the page loop goes on with the next listing; a
    response with any other status than 403 whose body is JSON gives that
    document; and a response with a status outside 400..599 whose body is not
    JSON raises, so that neither the listing nor the rest of the page is
    stored. *)
Theorem failed_detail_is_null (depth : nat) (c x : string) (job : json) (more : list json)
    (w : World) (r : Response) (rest : list Response) :
  (1 <= depth)%nat -> storable job = true -> sendable c x = true -> fetchable job = true ->
  upstream w = r :: rest -> status r <> 403 ->
  (400 <= status r < 600 ->
     get_job_details depth (listing_id job) c x w
       = Returns JNull (log (EvGet (listing_id job) c x) (set_upstream rest w))
     /\ exists w',
          store_job depth c x job w = Returns tt w'
          /\ details (listing_row (engine w) job JNull) = json_dumps JNull
          /\ table w' = insert_or_replace (listing_row (engine w) job JNull) (table w)
          /\ trace w' = trace w ++ [EvGet (listing_id job) c x;
                                    EvUpsert (listing_row (engine w) job JNull)]
          /\ for_each (job :: more) (fun j _ => store_job depth c x j) tt w
             = for_each more (fun j _ => store_job depth c x j) tt w')
  /\ (forall doc, ok r = true -> body r = Some doc ->
     get_job_details depth (listing_id job) c x w
       = Returns doc (log (EvGet (listing_id job) c x) (set_upstream rest w)))
  /\ (ok r = true -> body r = None ->
     get_job_details depth (listing_id job) c x w
       = Raises JSONDecodeError (log (EvGet (listing_id job) c x) (set_upstream rest w))
     /\ store_job depth c x job w
       = Raises JSONDecodeError (log (EvGet (listing_id job) c x) (set_upstream rest w))
     /\ for_each (job :: more) (fun j _ => store_job depth c x j) tt w
       = Raises JSONDecodeError (log (EvGet (listing_id job) c x) (set_upstream rest w))).
Proof.
  intros Hd Hst Hv Hf Hu Hs.
  split; [|split].
  - intros Hrange.
    assert (Hok : ok r = false).
    { unfold ok. destruct (Z.leb_spec 400 (status r)); [|lia].
      destruct (Z.ltb_spec (status r) 600); [reflexivity | lia]. }
    assert (Ha : answered r) by (split; [exact Hs | rewrite Hok; discriminate]).
    assert (Hdet : detail_of r = JNull) by (unfold detail_of; rewrite Hok; reflexivity).
    split.
    + destruct depth as [|d]; [lia|].
      rewrite (get_job_details_plain _ _ _ _ _ r rest) by (try assumption; apply Ha).
      rewrite Hdet. reflexivity.
    + pose proof (store_job_ok depth c x job w r rest Hd Hst Hv Hf Hu Ha) as Hrow.
      rewrite Hdet in Hrow.
      eexists. split; [exact Hrow|].
      split; [reflexivity|]. split; [reflexivity|]. split.
      { cbn [trace log set_table set_upstream]. rewrite <- app_assoc. reflexivity. }
      simpl for_each. unfold bind at 1. rewrite Hrow. reflexivity.
  - intros doc Hok Hb. destruct depth as [|d]; [lia|].
    rewrite (get_job_details_plain _ _ _ _ _ r rest)
      by (try assumption; intros _; rewrite Hb; discriminate).
    unfold detail_of. rewrite Hok, Hb. reflexivity.
  - intros Hok Hb.
    assert (Hm : exists m, job = JObj m).
    { destruct job; try discriminate Hst. eexists. reflexivity. }
    destruct Hm as [m ->].
    pose proof (store_job_malformed depth c x m w r rest Hd Hv Hf Hu Hs Hok Hb) as Hraise.
    split; [|split].
    + destruct depth as [|d]; [lia|].
      apply (get_job_details_malformed _ _ _ _ _ r rest); assumption.
    + exact Hraise.
    + simpl for_each. unfold bind at 1. rewrite Hraise. reflexivity.
Qed.

Lemma failed_detail_is_null_witness :
  get_job_details 1 (listing_id (listing "a" "A")) "c" "x"
    (world [mkResponse 500 None; answer (JStr "db")] [] Missing Missing [] [] [])
  = Returns JNull
      (log (EvGet (listing_id (listing "a" "A")) "c" "x")
         (set_upstream [answer (JStr "db")]
            (world [mkResponse 500 None; answer (JStr "db")] [] Missing Missing [] [] []))).
Proof.
  refine (proj1 (proj1 (failed_detail_is_null 1 "c" "x" (listing "a" "A") [listing "b" "B"]
            (world [mkResponse 500 None; answer (JStr "db")] [] Missing Missing [] [] [])
            (mkResponse 500 None) [answer (JStr "db")] _ _ _ _ _ _) _));
    first [reflexivity | apply le_n | simpl; discriminate | simpl; lia].
Defined.

(** C10. A first search response without [numberRecords] makes
    [handle_pagination] return the empty list after that single request: no
    page is crawled, nothing is upserted or committed. A page response without
    [jvs] adds no listing: no detail request and no upsert for that page. The
    response is a JSON object, not a 403, to a request whose credential the
    HTTP library sends. *)
Theorem missing_keys_mean_empty (depth : nat) (c x : string) (page : Z)
    (results : list json) (w : World) (r : Response) (rest : list Response)
    (m : list (string * json)) :
  (1 <= depth)%nat -> sendable c x = true ->
  upstream w = r :: rest -> status r <> 403 -> body r = Some (JObj m) ->
  (assoc "numberRecords" m = None ->
     handle_pagination depth c x w
       = Returns [] (log (EvPost 1 c x) (set_upstream rest w))
     /\ table (log (EvPost 1 c x) (set_upstream rest w)) = table w
     /\ durable (log (EvPost 1 c x) (set_upstream rest w)) = durable w
     /\ trace (log (EvPost 1 c x) (set_upstream rest w)) = trace w ++ [EvPost 1 c x])
  /\ (assoc "jvs" m = None ->
     exists w',
       crawl_page depth page (c, x, results) w = Returns (c, x, results ++ []) w'
       /\ trace w' = trace w ++ [EvPost page c x; EvCommit; EvSleep 1]
       /\ table w' = table w
       /\ upstream w' = rest).
Proof.
  intros Hd Hv Hu Hs Hb. destruct depth as [|d]; [lia|]. split; intros Hk.
  - unfold handle_pagination. unfold bind at 1.
    rewrite (make_api_request_plain _ _ _ _ _ r rest (JObj m)) by assumption.
    simpl get. rewrite Hk. repeat split.
  - unfold crawl_page. unfold bind at 1.
    rewrite (make_api_request_plain _ _ _ _ _ r rest (JObj m)) by assumption.
    simpl get. rewrite Hk. eexists. split; [reflexivity|].
    simpl. rewrite <- !app_assoc. repeat split.
Qed.

Lemma missing_keys_mean_empty_witness :
  handle_pagination 1 "c" "x" (world [answer (JObj [])] [] Missing Missing [] [] [])
  = Returns [] (log (EvPost 1 "c" "x")
                  (set_upstream [] (world [answer (JObj [])] [] Missing Missing [] [] []))).
Proof.
  refine (proj1 (proj1 (missing_keys_mean_empty 1 "c" "x" 1 []
            (world [answer (JObj [])] [] Missing Missing [] [] [])
            (answer (JObj [])) [] [] _ _ _ _ _) _));
    first [reflexivity | apply le_n | simpl; discriminate].
Defined.

Example credential_with_leading_space_is_refused :
  handle_pagination 1 " lead" "x" (world [answer (JObj [])] [] Missing Missing [] [] [])
  = Raises InvalidHeader (world [answer (JObj [])] [] Missing Missing [] [] []).
Proof. reflexivity. Qed.

End Ingestion.

(* ===================================================================== *)
(** ** Extraction, further *)
(* ===================================================================== *)

Section ExtractionMore.

Lemma scan_cookie_clean (c : json) (st : found) : clean st -> clean (fst (scan_cookie c st)).
Proof.
  intros [H1 H2]. unfold scan_cookie.
  destruct (py_in SESSION_NAME c) as [[|]|]; [| |split; assumption].
  - destruct (re_group1 SESSION_NAME c) eqn:E1; [|split; assumption].
    pose proof (re_group1_captured _ _ _ E1) as C1.
    destruct (py_in XSRF_NAME c) as [[|]|]; simpl.
    + destruct (re_group1 XSRF_NAME c) eqn:E2; simpl.
      * pose proof (re_group1_captured _ _ _ E2) as C2.
        split; simpl; intros v Hv; injection Hv as <-; assumption.
      * split; simpl; [intros v Hv; injection Hv as <-; assumption | exact H2].
    + split; simpl; [intros v Hv; injection Hv as <-; assumption | exact H2].
    + split; simpl; [intros v Hv; injection Hv as <-; assumption | exact H2].
  - destruct (py_in XSRF_NAME c) as [[|]|]; simpl; [| split; assumption | split; assumption].
    destruct (re_group1 XSRF_NAME c) eqn:E2; simpl; [|split; assumption].
    pose proof (re_group1_captured _ _ _ E2) as C2.
    split; simpl; [exact H1 | intros v Hv; injection Hv as <-; assumption].
Qed.

Lemma scan_cookies_clean (cs : list json) :
  forall st, clean st -> clean (fst (scan_cookies cs st)).
Proof.
  induction cs as [|c cs IH]; intros st H; [exact H|].
  simpl. pose proof (scan_cookie_clean c st H) as Hc.
  destruct (scan_cookie c st) as [st' completed]. simpl in Hc.
  destruct completed; [apply IH; exact Hc | exact Hc].
Qed.

Lemma scan_entry_clean (e : log_entry) (st : found) : clean st -> clean (fst (scan_entry e st)).
Proof.
  intros H. unfold scan_entry. destruct e as [doc|]; [|exact H].
  destruct (entry_cookies doc) as [[cs|]|]; try exact H.
  apply scan_cookies_clean. exact H.
Qed.

Lemma scan_logs_clean (logs : list log_entry) : forall st, clean st -> clean (scan_logs logs st).
Proof.
  induction logs as [|e logs IH]; intros st H; [exact H|].
  rewrite scan_logs_cons. pose proof (scan_entry_clean e st H) as Hc.
  destruct (snd (scan_entry e st) && both (fst (scan_entry e st))); [exact Hc | apply IH; exact Hc].
Qed.

(** X1. Whatever the log, a credential that extraction returns is well
    formed: the cookie is [EURES_JVSE_SESSIONID=] followed by a non-empty value
    without [;], and the token is non-empty and without [;]. *)
Theorem extracted_credential_is_captured (logs : list log_entry) (cookie token : string) :
  extract_cookies_from_logs logs = Ok (cookie, token) ->
  exists sid, cookie = (SESSION_NAME ++ sid)%string /\ captured sid /\ captured token.
Proof.
  unfold extract_cookies_from_logs.
  assert (Hc : clean (scan_logs logs (None, None))).
  { apply scan_logs_clean. split; intros v Hv; discriminate Hv. }
  destruct (scan_logs logs (None, None)) as [[sid|] [tok|]]; try discriminate.
  destruct (both (Some sid, Some tok)); [|discriminate].
  intros H. injection H as <- <-. destruct Hc as [H1 H2].
  exists sid. split; [reflexivity|]. split; [apply H1 | apply H2]; reflexivity.
Qed.

Lemma extracted_credential_is_captured_witness :
  exists sid, "EURES_JVSE_SESSIONID=abc123" = (SESSION_NAME ++ sid)%string
              /\ captured sid /\ captured "xyz789".
Proof.
  apply (extracted_credential_is_captured (good_log "abc123" "xyz789")
           "EURES_JVSE_SESSIONID=abc123" "xyz789").
  reflexivity.
Defined.

Ltac case_scan :=
  repeat match goal with
         | |- context [contains ?a ?b] => destruct (contains a b); simpl
         | |- context [re_search ?a ?b] => destruct (re_search a b); simpl
         | |- context [existsb ?f ?l] => destruct (existsb f l); simpl
         end;
  reflexivity.

Lemma scan_cookie_keeps_xsrf (c : json) (st : found) :
  names XSRF_NAME c = false -> snd (fst (scan_cookie c st)) = snd st.
Proof.
  intros Hn. unfold scan_cookie.
  destruct c; simpl in *; try reflexivity; try rewrite Hn; case_scan.
Qed.

Lemma scan_cookie_keeps_session (c : json) (st : found) :
  names SESSION_NAME c = false -> fst (fst (scan_cookie c st)) = fst st.
Proof.
  intros Hn. unfold scan_cookie.
  destruct c; simpl in *; try reflexivity; try rewrite Hn; case_scan.
Qed.

Lemma scan_cookies_keeps_xsrf (cs : list json) :
  Forall (fun c => names XSRF_NAME c = false) cs ->
  forall st, snd (fst (scan_cookies cs st)) = snd st.
Proof.
  induction 1 as [|c cs Hc _ IH]; intros st; [reflexivity|].
  simpl. pose proof (scan_cookie_keeps_xsrf c st Hc) as H.
  destruct (scan_cookie c st) as [st' completed]. simpl in H.
  destruct completed; [rewrite IH; exact H | exact H].
Qed.

Lemma scan_cookies_keeps_session (cs : list json) :
  Forall (fun c => names SESSION_NAME c = false) cs ->
  forall st, fst (fst (scan_cookies cs st)) = fst st.
Proof.
  induction 1 as [|c cs Hc _ IH]; intros st; [reflexivity|].
  simpl. pose proof (scan_cookie_keeps_session c st Hc) as H.
  destruct (scan_cookie c st) as [st' completed]. simpl in H.
  destruct completed; [rewrite IH; exact H | exact H].
Qed.

Lemma never_names_xsrf (e : log_entry) : never_names XSRF_NAME e -> keeps_xsrf e.
Proof.
  intros H st. unfold never_names, cookies_of in H. unfold scan_entry.
  destruct e as [doc|]; [|reflexivity].
  destruct (entry_cookies doc) as [[cs|]|]; try reflexivity.
  apply scan_cookies_keeps_xsrf. apply H. reflexivity.
Qed.

Lemma never_names_session (e : log_entry) (st : found) :
  never_names SESSION_NAME e -> fst (fst (scan_entry e st)) = fst st.
Proof.
  intros H. unfold never_names, cookies_of in H. unfold scan_entry.
  destruct e as [doc|]; [|reflexivity].
  destruct (entry_cookies doc) as [[cs|]|]; try reflexivity.
  apply scan_cookies_keeps_session. apply H. reflexivity.
Qed.

Lemma scan_logs_without_xsrf (logs : list log_entry) :
  Forall (never_names XSRF_NAME) logs ->
  forall a, snd (scan_logs logs (a, None)) = None.
Proof.
  induction 1 as [|e logs He _ IH]; intros a; [reflexivity|].
  rewrite scan_logs_cons.
  pose proof (never_names_xsrf e He (a, None)) as Hk. simpl in Hk.
  destruct (scan_entry e (a, None)) as [[a' x'] tested]. simpl in *. subst x'.
  rewrite both_without_xsrf, andb_false_r. apply IH.
Qed.

Lemma scan_logs_without_session (logs : list log_entry) :
  Forall (never_names SESSION_NAME) logs ->
  forall x, fst (scan_logs logs (None, x)) = None.
Proof.
  induction 1 as [|e logs He _ IH]; intros x; [reflexivity|].
  rewrite scan_logs_cons.
  pose proof (never_names_session e (None, x) He) as Hk. simpl in Hk.
  destruct (scan_entry e (None, x)) as [[a' x'] tested]. simpl in *. subst a'.
  unfold both. simpl. rewrite andb_false_r. apply IH.
Qed.

(** X2. When no cookie string of the log names [XSRF-TOKEN=], or none names
    [EURES_JVSE_SESSIONID=], extraction raises [Required cookies not found]. *)
Theorem missing_cookie_raises (logs : list log_entry) :
  Forall (never_names XSRF_NAME) logs \/ Forall (never_names SESSION_NAME) logs ->
  extract_cookies_from_logs logs = Err NOT_FOUND.
Proof.
  unfold extract_cookies_from_logs. intros [H | H].
  - pose proof (scan_logs_without_xsrf logs H None) as Hx.
    destruct (scan_logs logs (None, None)) as [[s|] [x|]]; try reflexivity.
    discriminate Hx.
  - pose proof (scan_logs_without_session logs H None) as Hs.
    destruct (scan_logs logs (None, None)) as [[s|] [x|]]; try reflexivity.
    discriminate Hs.
Qed.

Lemma missing_cookie_raises_witness :
  extract_cookies_from_logs [session_entry "abc123"; None; session_entry "def456"]
  = Err NOT_FOUND.
Proof.
  apply (missing_cookie_raises [session_entry "abc123"; None; session_entry "def456"]).
  left. repeat constructor; intros cs H; try discriminate H;
    injection H as <-; repeat constructor.
Defined.

Lemma scan_logs_skip (pre post : list log_entry) (e : log_entry) :
  cookies_of e = None ->
  forall st, scan_logs (pre ++ e :: post) st = scan_logs (pre ++ post) st.
Proof.
  intros He. assert (Hs : forall st, scan_entry e st = (st, false)).
  { intros st. unfold cookies_of in He. unfold scan_entry.
    destruct e as [doc|]; [|reflexivity].
    destruct (entry_cookies doc) as [[cs|]|]; [discriminate | reflexivity | reflexivity]. }
  induction pre as [|p pre IH]; intros st.
  - simpl app. rewrite scan_logs_cons, Hs. reflexivity.
  - simpl app. rewrite !scan_logs_cons.
    destruct (snd (scan_entry p st) && both (fst (scan_entry p st))); [reflexivity | apply IH].
Qed.

(** X3. An entry the loop skips (unparseable, of another method, without a
    [Set-Cookie] header, or raising before the inner loop) can be removed
    from anywhere in the log without changing the result. *)
Theorem skipped_entries_are_ignored (pre post : list log_entry) (e : log_entry) :
  cookies_of e = None ->
  extract_cookies_from_logs (pre ++ e :: post) = extract_cookies_from_logs (pre ++ post).
Proof.
  intros He. unfold extract_cookies_from_logs. rewrite (scan_logs_skip pre post e He).
  reflexivity.
Qed.

Lemma skipped_entries_are_ignored_witness :
  extract_cookies_from_logs
    ([session_entry "abc123"]
       ++ Some (JObj [("message", JObj [("method", JStr "Network.requestWillBeSent")])])
       :: [xsrf_entry "xyz789"])
  = extract_cookies_from_logs ([session_entry "abc123"] ++ [xsrf_entry "xyz789"]).
Proof.
  apply (skipped_entries_are_ignored [session_entry "abc123"] [xsrf_entry "xyz789"]
           (Some (JObj [("message", JObj [("method", JStr "Network.requestWillBeSent")])]))).
  reflexivity.
Defined.

Lemma split_lines_line (c : string) : newline_free c = true -> split_lines c = [c].
Proof.
  induction c as [|a t IH]; [reflexivity|].
  simpl. intros H. apply andb_prop in H. destruct H as [Ha Ht].
  destruct (Ascii.eqb a "010"); [discriminate|]. rewrite (IH Ht). reflexivity.
Qed.

Lemma split_lines_app (c r : string) :
  newline_free c = true -> split_lines (c ++ String "010" r) = c :: split_lines r.
Proof.
  induction c as [|a t IH]; [reflexivity|].
  simpl. intros H. apply andb_prop in H. destruct H as [Ha Ht].
  destruct (Ascii.eqb a "010"); [discriminate|]. rewrite (IH Ht). reflexivity.
Qed.

Lemma split_join_lines (cs : list string) :
  cs <> [] -> Forall (fun c => newline_free c = true) cs -> split_lines (join_lines cs) = cs.
Proof.
  induction cs as [|c rest IH]; [congruence|].
  intros _ H. inversion H as [|? ? Hc Hrest]; subst.
  destruct rest as [|c' rest'].
  - simpl. apply split_lines_line. exact Hc.
  - change (join_lines (c :: c' :: rest')) with (c ++ String "010" (join_lines (c' :: rest')))%string.
    rewrite split_lines_app by exact Hc. rewrite IH; [reflexivity | discriminate | exact Hrest].
Qed.

(** X4. A [Set-Cookie] header given as one string joining the cookies with
    line feeds is scanned exactly as the same cookies given as a list. *)
Theorem header_text_or_list (cs : list string) (st : found) :
  Forall (fun c => newline_free c = true) cs -> join_lines cs <> "" ->
  scan_entry (set_cookie_entry (JStr (join_lines cs))) st
  = scan_entry (set_cookie_entry (JArr (map JStr cs))) st.
Proof.
  intros Hnf Hne.
  assert (Hcs : cs <> []) by (intros ->; apply Hne; reflexivity).
  unfold scan_entry, set_cookie_entry, entry_cookies. simpl.
  rewrite (string_eqb_nonempty _ Hne). simpl.
  rewrite (split_join_lines cs Hcs Hnf).
  destruct cs; [congruence|]. reflexivity.
Qed.

Lemma header_text_or_list_witness :
  scan_entry (set_cookie_entry
                (JStr (join_lines ["EURES_JVSE_SESSIONID=abc123; Path=/";
                                   "XSRF-TOKEN=xyz789; Path=/"]))) (None, None)
  = scan_entry (set_cookie_entry
                  (JArr (map JStr ["EURES_JVSE_SESSIONID=abc123; Path=/";
                                   "XSRF-TOKEN=xyz789; Path=/"]))) (None, None).
Proof.
  apply (header_text_or_list ["EURES_JVSE_SESSIONID=abc123; Path=/"; "XSRF-TOKEN=xyz789; Path=/"]).
  - repeat constructor.
  - discriminate.
Defined.

End ExtractionMore.

(* ===================================================================== *)
(** ** Failed and endless refresh *)
(* ===================================================================== *)

Section ClientMore.

Lemma reload_cookie_fails (w : World) logs later e :
  browser w = logs :: later -> extract_cookies_from_logs logs = Err e ->
  reload_cookie w
  = Raises e (log EvQuit (log (EvSleep 7) (log EvAcquire (set_browser later w)))).
Proof.
  intros Hb He. unfold reload_cookie, bind, obtain_cookies_via_selenium.
  rewrite Hb, He. reflexivity.
Qed.

(** X5. When a request is refused and the browser log lacks a cookie, the
    call raises the acquisition error: the browser was started and quit, no
    second request is sent and neither credential file is written. *)
Theorem failed_acquisition_is_fatal (depth : nat) (c x : string) (p : Z) (job_id : json)
    (w : World) (r : Response) (rest : list Response) (logs : list log_entry)
    (later : list (list log_entry)) (e : exn) :
  (1 <= depth)%nat -> sendable c x = true -> referer_ok job_id = true ->
  upstream w = r :: rest -> status r = 403 ->
  browser w = logs :: later -> extract_cookies_from_logs logs = Err e ->
  (exists w',
      make_api_request depth c x p w = Raises e w'
      /\ trace w' = trace w ++ [EvPost p c x; EvAcquire; EvSleep 7; EvQuit]
      /\ cookie_file w' = cookie_file w /\ xsrf_file w' = xsrf_file w
      /\ upstream w' = rest)
  /\ (exists w',
      get_job_details depth job_id c x w = Raises e w'
      /\ trace w' = trace w ++ [EvGet job_id c x; EvAcquire; EvSleep 7; EvQuit]
      /\ cookie_file w' = cookie_file w /\ xsrf_file w' = xsrf_file w
      /\ upstream w' = rest).
Proof.
  intros Hd Hv Hi Hu Hs Hb He. destruct depth as [|d]; [lia|]. split.
  - simpl. unfold bind at 1. rewrite (requests_post_sent p c x w r rest Hv Hu), Hs. simpl.
    unfold bind at 1. erewrite reload_cookie_fails; [| simpl; exact Hb | exact He].
    eexists. split; [reflexivity|].
    cbn [trace upstream cookie_file xsrf_file log set_upstream set_browser].
    rewrite <- !app_assoc. repeat split; reflexivity.
  - simpl. unfold bind at 1. rewrite (requests_get_sent job_id c x w r rest Hv Hi Hu), Hs. simpl.
    unfold bind at 1. erewrite reload_cookie_fails; [| simpl; exact Hb | exact He].
    eexists. split; [reflexivity|].
    cbn [trace upstream cookie_file xsrf_file log set_upstream set_browser].
    rewrite <- !app_assoc. repeat split; reflexivity.
Qed.

Lemma failed_acquisition_is_fatal_witness :
  exists w',
    make_api_request 1 "stale" "old" 1
      (world [denied; answer JNull] [[session_entry "abc123"]] Missing Missing [] [] [])
    = Raises NOT_FOUND w'
    /\ trace w' = [] ++ [EvPost 1 "stale" "old"; EvAcquire; EvSleep 7; EvQuit]
    /\ cookie_file w' = Missing /\ xsrf_file w' = Missing
    /\ upstream w' = [answer JNull].
Proof.
  refine (proj1 (failed_acquisition_is_fatal 1 "stale" "old" 1 JNull
            (world [denied; answer JNull] [[session_entry "abc123"]] Missing Missing [] [] [])
            denied [answer JNull] [session_entry "abc123"] [] NOT_FOUND _ _ _ _ _ _ _));
    first [reflexivity | apply le_n].
Defined.

Lemma reload_cookie_upstream (w w' : World) (cr : string * string) :
  reload_cookie w = Returns cr w' -> upstream w' = upstream w.
Proof.
  unfold reload_cookie, bind, obtain_cookies_via_selenium.
  destruct (browser w) as [|logs later]; [discriminate|].
  destruct (extract_cookies_from_logs logs) as [[c x]|e]; [|discriminate].
  intros H. injection H as _ <-. reflexivity.
Qed.

Lemma send_returns (ev : Event) (prepared : bool) (c x : string) (w w' : World) (r : Response) :
  send ev prepared c x w = Returns r w' ->
  exists rest, upstream w = r :: rest /\ upstream w' = rest.
Proof.
  unfold send. destruct (negb prepared); [discriminate|].
  destruct (upstream w) as [|r0 rest]; [discriminate|].
  destruct (has_line_break x || has_line_break c); [discriminate|].
  intros H. injection H as <- <-. exists rest. split; reflexivity.
Qed.

Lemma search_result_source (depth : nat) :
  forall (c x : string) (p : Z) (w w' : World) (doc : json) (c' x' : string),
    make_api_request depth c x p w = Returns (doc, c', x') w' ->
    exists r, In r (upstream w) /\ status r <> 403 /\ body r = Some doc.
Proof.
  induction depth as [|d IH]; intros c x p w w' doc c' x'; [discriminate|].
  simpl make_api_request. unfold bind at 1. unfold requests_post.
  destruct (send (EvPost p c x) (requests_accepts x && requests_accepts c) c x w)
    as [r w1|e w1] eqn:Es; [|discriminate].
  destruct (send_returns _ _ _ _ _ _ _ Es) as (rest & Hu & Hu1).
  destruct (Z.eqb_spec (status r) 403) as [H403|H403].
  - unfold bind at 1. destruct (reload_cookie w1) as [[c2 x2] w2|e w2] eqn:Er; [|discriminate].
    intros H. destruct (IH _ _ _ _ _ _ _ _ H) as (r' & Hin & Hs & Hb).
    exists r'. rewrite (reload_cookie_upstream _ _ _ Er), Hu1 in Hin.
    rewrite Hu. split; [right; exact Hin | split; assumption].
  - unfold bind, response_json. destruct (body r) as [d0|] eqn:Hb; [|discriminate].
    intros H. injection H as <- _ _ _.
    exists r. rewrite Hu. split; [left; reflexivity | split; assumption].
Qed.

Lemma detail_result_source (depth : nat) :
  forall (i : json) (c x : string) (w w' : World) (doc : json),
    get_job_details depth i c x w = Returns doc w' ->
    exists r, In r (upstream w) /\ status r <> 403 /\ doc = detail_of r.
Proof.
  induction depth as [|d IH]; intros i c x w w' doc; [discriminate|].
  simpl get_job_details. unfold bind at 1. unfold requests_get.
  destruct (send (EvGet i c x) (requests_accepts x && referer_ok i && requests_accepts c) c x w)
    as [r w1|e w1] eqn:Es; [|discriminate].
  destruct (send_returns _ _ _ _ _ _ _ Es) as (rest & Hu & Hu1).
  destruct (Z.eqb_spec (status r) 403) as [H403|H403].
  - unfold bind at 1. destruct (reload_cookie w1) as [[c2 x2] w2|e w2] eqn:Er; [|discriminate].
    intros H. destruct (IH _ _ _ _ _ _ H) as (r' & Hin & Hs & Hb).
    exists r'. rewrite (reload_cookie_upstream _ _ _ Er), Hu1 in Hin.
    rewrite Hu. split; [right; exact Hin | split; assumption].
  - destruct (ok r) eqn:Hok.
    + unfold response_json. destruct (body r) as [d0|] eqn:Hb; [|discriminate].
      intros H. injection H as <- _.
      exists r. rewrite Hu. split; [left; reflexivity | split; [assumption|]].
      unfold detail_of. rewrite Hok, Hb. reflexivity.
    + intros H. injection H as <- _.
      exists r. rewrite Hu. split; [left; reflexivity | split; [assumption|]].
      unfold detail_of. rewrite Hok. reflexivity.
Qed.

(** X6. However many refusals and refreshes happen within a call, what it
    returns comes from a response that was not a 403: the document of
    [make_api_request] is the JSON body of such a response, the result of
    [get_job_details] what such a response gives. While the upstream answers
    403 only, neither call returns. *)
Theorem result_comes_from_an_answer (depth : nat) (job_id : json) (c x : string) (p : Z)
    (w : World) :
  (forall doc c' x' w',
      make_api_request depth c x p w = Returns (doc, c', x') w' ->
      exists r, In r (upstream w) /\ status r <> 403 /\ body r = Some doc)
  /\ (forall doc w',
      get_job_details depth job_id c x w = Returns doc w' ->
      exists r, In r (upstream w) /\ status r <> 403 /\ doc = detail_of r)
  /\ (Forall (fun r => status r = 403) (upstream w) ->
      (forall a w', make_api_request depth c x p w <> Returns a w')
      /\ (forall a w', get_job_details depth job_id c x w <> Returns a w')).
Proof.
  split; [|split].
  - intros doc c' x' w'. apply search_result_source.
  - intros doc w'. apply detail_result_source.
  - intros Hall. rewrite Forall_forall in Hall. split.
    + intros [[doc c'] x'] w' H.
      destruct (search_result_source _ _ _ _ _ _ _ _ _ H) as (r & Hin & Hs & _).
      exact (Hs (Hall r Hin)).
    + intros doc w' H.
      destruct (detail_result_source _ _ _ _ _ _ _ H) as (r & Hin & Hs & _).
      exact (Hs (Hall r Hin)).
Qed.

Lemma result_comes_from_an_answer_witness :
  exists r, In r (upstream thrice_denied) /\ status r <> 403 /\ body r = Some (JStr "doc").
Proof.
  refine (proj1 (result_comes_from_an_answer 4 JNull "stale" "old" 1 thrice_denied)
            (JStr "doc") "EURES_JVSE_SESSIONID=s3" "t3"
            (world_of (make_api_request 4 "stale" "old" 1 thrice_denied)) _).
  vm_compute. reflexivity.
Defined.

End ClientMore.

(* ===================================================================== *)
(** ** The relation under upsert *)
(* ===================================================================== *)

Section UpsertMore.

Lemma sql_eqb_eq (a b : sqlval) : sql_eqb a b = true -> a = b.
Proof.
  destruct a, b; simpl; try discriminate.
  - intros H. apply Z.eqb_eq in H. congruence.
  - intros H. apply FloatAxioms.Leibniz.eqb_spec in H. congruence.
  - intros H. apply String.eqb_eq in H. congruence.
Qed.

Lemma sql_eqb_not_null (a b : sqlval) : sql_eqb a b = true -> a <> SNull.
Proof. destruct a; simpl; discriminate. Qed.

Lemma filter_filter_same {A} (p q : A -> bool) (l : list A) :
  (forall a, p a = true -> q a = true) -> filter p (filter q l) = filter p l.
Proof.
  intros H. induction l as [|a l IH]; [reflexivity|].
  simpl. destruct (q a) eqn:Eq; simpl.
  - destruct (p a); [rewrite IH|]; auto.
  - destruct (p a) eqn:Ep; [|exact IH]. rewrite (H a Ep) in Eq. discriminate.
Qed.

Lemma insert_keeps_other_ids (r : Row) (t : list Row) (k : sqlval) :
  k <> id r -> rows_with_id k (insert_or_replace r t) = rows_with_id k t.
Proof.
  intros Hk. unfold rows_with_id, insert_or_replace, collides.
  rewrite filter_app. simpl.
  destruct (sql_eqb k (id r)) eqn:E; [apply sql_eqb_eq in E; contradiction|].
  rewrite app_nil_r. apply filter_filter_same.
  intros old Hold. apply sql_eqb_eq in Hold. subst k.
  destruct (sql_eqb (id r) (id old)) eqn:E'; [|reflexivity].
  apply sql_eqb_eq in E'. congruence.
Qed.

Lemma rows_with_null (t : list Row) : rows_with_id SNull t = [].
Proof. unfold rows_with_id. induction t as [|a t IH]; [reflexivity | exact IH]. Qed.

Lemma insert_keeps_unique (r : Row) (t : list Row) :
  unique_ids t -> unique_ids (insert_or_replace r t).
Proof.
  intros Hu k. destruct (sql_eqb k (id r)) eqn:E.
  - pose proof (sql_eqb_not_null _ _ E) as Hn. apply sql_eqb_eq in E. subst k.
    rewrite rows_with_id_after_insert by exact Hn. simpl. lia.
  - assert (Hk : k = SNull \/ k <> SNull) by (destruct k; [left; reflexivity | right; discriminate ..]).
    destruct Hk as [-> | Hk]; [rewrite rows_with_null; simpl; lia|].
    rewrite insert_keeps_other_ids; [apply Hu|].
    intros ->. rewrite sql_eqb_refl in E by exact Hk. discriminate.
Qed.

Lemma id_listing_row (eng : Engine) (job detail : json) :
  id (listing_row eng job detail) = stored_id eng job.
Proof. reflexivity. Qed.

Lemma table_after_store (depth : nat) (c x : string) (job : json) (w : World)
    (r : Response) (rest : list Response) :
  (1 <= depth)%nat -> storable job = true -> sendable c x = true -> fetchable job = true ->
  upstream w = r :: rest -> answered r ->
  exists w',
    store_job depth c x job w = Returns tt w'
    /\ table w' = insert_or_replace (listing_row (engine w) job (detail_of r)) (table w)
    /\ upstream w' = rest /\ engine w' = engine w.
Proof.
  intros Hd Hst Hv Hf Hu Ha.
  rewrite (store_job_ok depth c x job w r rest Hd Hst Hv Hf Hu Ha).
  eexists. split; [reflexivity|]. repeat split.
Qed.



Example integer_and_text_ids_share_a_key :
  stored_id plain_engine (JObj [("id", JInt 17)]) = stored_id plain_engine (JObj [("id", JStr "17")])
  /\ stored_id plain_engine (JObj [("id", JInt (-4))]) = SText "-4"
  /\ stored_id plain_engine (JObj [("id", JBool true)]) = SText "1".
Proof. repeat split. Qed.

(** X7. Storing a listing leaves the rows stored under every other key as
    they were. *)
Theorem upsert_keeps_other_ids (depth : nat) (c x : string) (job : json) (w : World)
    (r : Response) (rest : list Response) (k : sqlval) :
  (1 <= depth)%nat -> storable job = true -> sendable c x = true -> fetchable job = true ->
  upstream w = r :: rest -> answered r ->
  k <> stored_id (engine w) job ->
  exists w',
    store_job depth c x job w = Returns tt w'
    /\ rows_with_id k (table w') = rows_with_id k (table w).
Proof.
  intros Hd Hst Hv Hf Hu Ha Hk.
  destruct (table_after_store depth c x job w r rest Hd Hst Hv Hf Hu Ha)
    as (w' & Hs & Ht & _ & _).
  exists w'. split; [exact Hs|].
  rewrite Ht. apply insert_keeps_other_ids. rewrite id_listing_row. exact Hk.
Qed.

Lemma upsert_keeps_other_ids_witness :
  exists w',
    store_job 1 "c" "x" (JObj [("id", JInt 1); ("title", JStr "new")])
      (world [answer (JStr "d")] [] Missing Missing
             [row_of "1" "old" JNull; row_of "10" "x" JNull] [] [])
    = Returns tt w'
    /\ rows_with_id (SText "10") (table w')
       = rows_with_id (SText "10") [row_of "1" "old" JNull; row_of "10" "x" JNull].
Proof.
  refine (upsert_keeps_other_ids 1 "c" "x" (JObj [("id", JInt 1); ("title", JStr "new")])
            (world [answer (JStr "d")] [] Missing Missing
                   [row_of "1" "old" JNull; row_of "10" "x" JNull] [] [])
            (answer (JStr "d")) [] (SText "10") _ _ _ _ _ _ _);
    first [reflexivity | apply le_n | discriminate | split; simpl; intros; discriminate].
Defined.

Example integer_id_replaces_the_text_row :
  table (world_of
    (store_job 1 "c" "x" (JObj [("id", JInt 1); ("title", JStr "new")])
       (world [answer (JStr "d")] [] Missing Missing
              [row_of "1" "old" JNull; row_of "10" "x" JNull] [] [])))
  = [row_of "10" "x" JNull;
     mkRow (SText "1") SNull SNull (SText "new") SNull SNull JNull SNull JNull JNull
           SNull JNull JNull SNull (JStr "d")].
Proof. reflexivity. Qed.

(** X8. If no two rows share a key, none do after a listing is stored. *)
Theorem upsert_keeps_ids_unique (depth : nat) (c x : string) (job : json) (w : World)
    (r : Response) (rest : list Response) :
  (1 <= depth)%nat -> storable job = true -> sendable c x = true -> fetchable job = true ->
  upstream w = r :: rest -> answered r ->
  unique_ids (table w) ->
  exists w', store_job depth c x job w = Returns tt w' /\ unique_ids (table w').
Proof.
  intros Hd Hst Hv Hf Hu Ha Hq.
  destruct (table_after_store depth c x job w r rest Hd Hst Hv Hf Hu Ha)
    as (w' & Hs & Ht & _ & _).
  exists w'. split; [exact Hs|]. rewrite Ht. apply insert_keeps_unique. exact Hq.
Qed.

Lemma upsert_keeps_ids_unique_witness :
  exists w',
    store_job 1 "c" "x" (listing "a" "A")
      (world [answer (JStr "d")] [] Missing Missing
             [row_of "a" "old" JNull; row_of "b" "B" JNull] [] [])
    = Returns tt w'
    /\ unique_ids (table w').
Proof.
  refine (upsert_keeps_ids_unique 1 "c" "x" (listing "a" "A")
            (world [answer (JStr "d")] [] Missing Missing
                   [row_of "a" "old" JNull; row_of "b" "B" JNull] [] [])
            (answer (JStr "d")) [] _ _ _ _ _ _ _);
    try first [reflexivity | apply le_n | split; simpl; intros; discriminate].
  intros k. unfold rows_with_id. simpl.
  destruct k as [| | |s]; simpl; try lia.
  destruct (String.eqb_spec s "b") as [->|Hb]; simpl; [lia|].
  destruct (String.eqb s "a"); simpl; lia.
Defined.

End UpsertMore.

(* ===================================================================== *)
(** ** What every operation preserves *)
(* ===================================================================== *)

Section Frames.

Variable R : World -> World -> Prop.
Hypothesis R_refl : forall w, R w w.
Hypothesis R_trans : forall w1 w2 w3, R w1 w2 -> R w2 w3 -> R w1 w3.
Hypothesis R_log : forall ev w, R w (log ev w).
Hypothesis R_upstream : forall u w, R w (set_upstream u w).
Hypothesis R_browser : forall b w, R w (set_browser b w).
Hypothesis R_cookie_file : forall f w, R w (set_cookie_file f w).
Hypothesis R_xsrf_file : forall f w, R w (set_xsrf_file f w).
Hypothesis R_insert : forall r w, R w (set_table (insert_or_replace r (table w)) w).

Lemma steps_ret {A} (a : A) : steps R (ret a).
Proof. intros w. apply R_refl. Qed.

Lemma steps_raise {A} (e : exn) : steps R (@raise A e).
Proof. intros w. apply R_refl. Qed.

Lemma steps_lift {A} (r : result A) : steps R (lift r).
Proof. destruct r; [apply steps_ret | apply steps_raise]. Qed.

Lemma steps_bind {A B} (m : M A) (k : A -> M B) :
  steps R m -> (forall a, steps R (k a)) -> steps R (bind m k).
Proof.
  intros Hm Hk w. unfold bind. specialize (Hm w).
  destruct (m w) as [a w1|e w1]; simpl in *; [|exact Hm].
  apply (R_trans _ w1); [exact Hm | apply Hk].
Qed.

Lemma steps_for_each {A S} (body : A -> S -> M S) (xs : list A) :
  (forall x s, steps R (body x s)) -> forall s, steps R (for_each xs body s).
Proof.
  intros Hb. induction xs as [|x xs IH]; intros s; [apply steps_ret|].
  simpl. apply steps_bind; [apply Hb | exact IH].
Qed.

Lemma steps_send ev prepared c x : steps R (send ev prepared c x).
Proof.
  intros w. unfold send. destruct (negb prepared); [apply R_refl|].
  destruct (upstream w) as [|r later]; simpl; [apply R_log|].
  destruct (has_line_break x || has_line_break c); [apply R_refl|].
  apply (R_trans _ (set_upstream later w)); [apply R_upstream | apply R_log].
Qed.

Lemma steps_requests_post p c x : steps R (requests_post p c x).
Proof. apply steps_send. Qed.

Lemma steps_requests_get i c x : steps R (requests_get i c x).
Proof. apply steps_send. Qed.

Lemma steps_response_json r : steps R (response_json r).
Proof. unfold response_json. destruct (body r); [apply steps_ret | apply steps_raise]. Qed.

Lemma steps_obtain : steps R obtain_cookies_via_selenium.
Proof.
  intros w. unfold obtain_cookies_via_selenium. destruct (browser w) as [|logs later]; [apply R_refl|].
  assert (H : R w (log EvQuit (log (EvSleep 7) (log EvAcquire (set_browser later w))))).
  { eapply R_trans; [apply R_browser|]. eapply R_trans; [apply R_log|].
    eapply R_trans; [apply R_log|]. apply R_log. }
  destruct (extract_cookies_from_logs logs); exact H.
Qed.

Lemma steps_save_cookie c x : steps R (save_cookie c x).
Proof.
  intros w. unfold save_cookie. simpl.
  eapply R_trans; [apply R_cookie_file | apply R_log].
Qed.

Lemma steps_save_xsrf_token x : steps R (save_xsrf_token x).
Proof.
  intros w. unfold save_xsrf_token. simpl.
  eapply R_trans; [apply R_xsrf_file | apply R_log].
Qed.

Lemma steps_reload_cookie : steps R reload_cookie.
Proof.
  unfold reload_cookie. apply steps_bind; [apply steps_obtain|]. intros [c x].
  apply steps_bind; [apply steps_save_cookie|]. intros _.
  apply steps_bind; [apply steps_save_xsrf_token|]. intros _. apply steps_ret.
Qed.

Lemma steps_make_api_request depth : forall c x p, steps R (make_api_request depth c x p).
Proof.
  induction depth as [|d IH]; intros c x p; [apply steps_raise|].
  simpl. apply steps_bind; [apply steps_requests_post|]. intros r.
  destruct (status r =? 403).
  - apply steps_bind; [apply steps_reload_cookie|]. intros [c' x']. apply IH.
  - apply steps_bind; [apply steps_response_json|]. intros doc. apply steps_ret.
Qed.

Lemma steps_get_job_details depth : forall i c x, steps R (get_job_details depth i c x).
Proof.
  induction depth as [|d IH]; intros i c x; [apply steps_raise|].
  simpl. apply steps_bind; [apply steps_requests_get|]. intros r.
  destruct (status r =? 403).
  - apply steps_bind; [apply steps_reload_cookie|]. intros [c' x']. apply IH.
  - destruct (ok r); [apply steps_response_json | apply steps_ret].
Qed.

Lemma steps_execute v1 v2 v3 v4 v5 v6 d7 v8 d9 d10 v11 d12 d13 v14 d15 :
  steps R (execute_insert_or_replace v1 v2 v3 v4 v5 v6 d7 v8 d9 d10 v11 d12 d13 v14 d15).
Proof.
  unfold execute_insert_or_replace.
  repeat (apply steps_bind; [apply steps_lift|]; intros ?).
  intros w. simpl. eapply R_trans; [apply R_insert | apply R_log].
Qed.

Lemma steps_store_job depth c x job : steps R (store_job depth c x job).
Proof.
  unfold store_job.
  repeat (apply steps_bind; [apply steps_lift|]; intros ?).
  apply steps_bind; [apply steps_get_job_details|]. intros ?. apply steps_execute.
Qed.

End Frames.

(* ===================================================================== *)
(** ** Commit and uniqueness *)
(* ===================================================================== *)

Section Durability.

Lemma same_durable_frames_ok :
  (forall w, same_durable w w)
  /\ (forall w1 w2 w3, same_durable w1 w2 -> same_durable w2 w3 -> same_durable w1 w3).
Proof. unfold same_durable. split; [reflexivity | intros; congruence]. Qed.

Lemma durable_store_job depth c x job : steps same_durable (store_job depth c x job).
Proof.
  apply steps_store_job; unfold same_durable; try reflexivity. intros; congruence.
Qed.

Lemma durable_make_api_request depth c x p : steps same_durable (make_api_request depth c x p).
Proof.
  apply steps_make_api_request; unfold same_durable; try reflexivity. intros; congruence.
Qed.

Lemma durable_jobs_loop depth c x items :
  steps same_durable (for_each items (fun job _ => store_job depth c x job) tt).
Proof.
  apply steps_for_each; unfold same_durable; try reflexivity; [intros; congruence|].
  intros job s. apply durable_store_job.
Qed.

(** X9. A page either completes, and then everything written so far is
    committed, or raises, and then nothing was committed since the page began. *)
Theorem page_commits_whole_or_nothing (depth : nat) (page : Z) (st : crawl_state) (w : World) :
  match crawl_page depth page st w with
  | Returns _ w' => durable w' = table w'
  | Raises _ w' => durable w' = durable w
  end.
Proof.
  destruct st as [[c x] results]. unfold crawl_page. unfold bind at 1.
  pose proof (durable_make_api_request depth c x page w) as H1. unfold same_durable in H1.
  destruct (make_api_request depth c x page w) as [[[response c'] x'] w1|e w1];
    simpl in H1; [|exact H1].
  unfold bind at 1.
  destruct (get response "jvs" (JArr [])) as [jobs|e]; simpl; [|exact H1].
  unfold bind at 1.
  destruct (iter jobs) as [items|e]; simpl; [|exact H1].
  unfold bind at 1.
  pose proof (durable_jobs_loop depth c' x' items w1) as H2. unfold same_durable in H2.
  destruct (for_each items (fun job _ => store_job depth c' x' job) tt w1) as [[] w2|e w2];
    simpl in H2; [|congruence].
  reflexivity.
Qed.

Ltac unique_frames :=
  unfold keeps_unique; simpl; try (intros; tauto);
  try (intros r w [Ht Hd]; split; [apply insert_keeps_unique; exact Ht | exact Hd]).

Lemma unique_make_api_request depth c x p : steps keeps_unique (make_api_request depth c x p).
Proof. apply steps_make_api_request; unique_frames. Qed.

Lemma unique_store_job depth c x job : steps keeps_unique (store_job depth c x job).
Proof. apply steps_store_job; unique_frames. Qed.

Lemma unique_crawl_page depth page st : steps keeps_unique (crawl_page depth page st).
Proof.
  destruct st as [[c x] results]. unfold crawl_page.
  apply steps_bind; try (unique_frames; fail); [apply unique_make_api_request|].
  intros [[response c'] x'].
  apply steps_bind; try (unique_frames; fail); [apply steps_lift; unique_frames|]. intros jobs.
  apply steps_bind; try (unique_frames; fail); [apply steps_lift; unique_frames|]. intros items.
  apply steps_bind; try (unique_frames; fail).
  { apply steps_for_each; try (unique_frames; fail). intros job s. apply unique_store_job. }
  intros _.
  apply steps_bind; try (unique_frames; fail).
  { intros w. unfold commit. simpl. unfold keeps_unique. simpl. tauto. }
  intros _.
  apply steps_bind; try (unique_frames; fail).
  { intros w. unfold emit. simpl. unique_frames. }
  intros _. apply steps_ret. unique_frames.
Qed.

(** X10. Whatever the upstream answers and however the crawl ends, it creates
    no duplicate id, neither in the table nor in what is committed. *)
Theorem crawl_never_duplicates_ids (depth : nat) (c x : string) (w : World) :
  unique_ids (table w) -> unique_ids (durable w) ->
  unique_ids (table (world_of (handle_pagination depth c x w)))
  /\ unique_ids (durable (world_of (handle_pagination depth c x w))).
Proof.
  intros Ht Hd. revert w Ht Hd.
  assert (H : steps keeps_unique (handle_pagination depth c x)).
  { unfold handle_pagination.
    apply steps_bind; try (unique_frames; fail); [apply unique_make_api_request|].
    intros [[response c'] x'].
    apply steps_bind; try (unique_frames; fail); [apply steps_lift; unique_frames|]. intros total.
    apply steps_bind; try (unique_frames; fail); [apply steps_lift; unique_frames|]. intros n.
    apply steps_bind; try (unique_frames; fail).
    { apply steps_for_each; try (unique_frames; fail). intros page st. apply unique_crawl_page. }
    intros [[? ?] results]. apply steps_ret. unique_frames. }
  intros w Ht Hd. apply (H w). split; assumption.
Qed.

Lemma crawl_never_duplicates_ids_witness :
  unique_ids (table (world_of (handle_pagination 1 "c" "x" sixty_records)))
  /\ unique_ids (durable (world_of (handle_pagination 1 "c" "x" sixty_records))).
Proof.
  apply (crawl_never_duplicates_ids 1 "c" "x" sixty_records); intros k; simpl; lia.
Defined.

End Durability.

(* ===================================================================== *)
(** ** Listings and totals the crawl refuses *)
(* ===================================================================== *)

Section Edges.

Lemma bind_param_err (v : json) (e : exn) :
  bind_param v = Err e -> e = BindingError \/ e = OverflowError.
Proof.
  intros E. destruct v; unfold bind_param in E;
    try discriminate; try (injection E as <-; auto).
  - destruct ((- 2 ^ 63 <=? n) && (n <? 2 ^ 63)); [discriminate | injection E as <-; auto].
  - destruct (PrimFloat.is_nan f); discriminate.
Qed.

(** X11. A listing one of whose scalar members is a list, a dict or an integer
    outside 64 bits has its detail requested, then the INSERT raises: the
    listing is not written and the crawl stops. *)
Theorem unstorable_listing_aborts (depth : nat) (c x : string) (m : list (string * json))
    (w : World) (r : Response) (rest : list Response) :
  (1 <= depth)%nat -> storable (JObj m) = false ->
  sendable c x = true -> fetchable (JObj m) = true ->
  upstream w = r :: rest -> answered r ->
  exists e,
    (e = BindingError \/ e = OverflowError)
    /\ store_job depth c x (JObj m) w
       = Raises e (log (EvGet (listing_id (JObj m)) c x) (set_upstream rest w)).
Proof.
  intros Hd Hst Hv Hf Hu [Hs Hb]. destruct depth as [|d]; [lia|].
  unfold fetchable, listing_id, member in Hf. simpl get in Hf.
  unfold store_job. simpl get. unfold lift at 1 2 3 4 5 6 7 8 9 10 11 12 13 14 15.
  unfold bind, ret.
  rewrite (get_job_details_plain _ _ _ _ _ r rest) by assumption.
  unfold execute_insert_or_replace, bind.
  unfold storable, SCALAR_COLUMNS, member in Hst. simpl in Hst.
  repeat match goal with
         | |- context [lift (bind_param ?v)] =>
             let E := fresh "E" in
             destruct (bind_param v) eqn:E;
             [ unfold lift at 1; unfold ret at 1
             | unfold lift at 1; unfold raise at 1 ]
         end;
    try (eexists; split; [eapply bind_param_err; eassumption | reflexivity]).
  unfold bindable in Hst.
  repeat match goal with
         | H : bind_param _ = Ok _ |- _ => rewrite H in Hst; clear H
         end.
  discriminate Hst.
Qed.

Lemma unstorable_listing_aborts_witness :
  exists e,
    (e = BindingError \/ e = OverflowError)
    /\ store_job 1 "c" "x" (JObj [("id", JStr "a"); ("title", JArr [])])
         (world [answer JNull] [] Missing Missing [] [] [])
       = Raises e
           (log (EvGet (listing_id (JObj [("id", JStr "a"); ("title", JArr [])])) "c" "x")
              (set_upstream [] (world [answer JNull] [] Missing Missing [] [] []))).
Proof.
  apply (unstorable_listing_aborts 1 "c" "x" [("id", JStr "a"); ("title", JArr [])]
           (world [answer JNull] [] Missing Missing [] [] []) (answer JNull) []);
    first [reflexivity | apply le_n | split; [simpl; discriminate | simpl; intros; discriminate]].
Defined.

(** X12. A page whose first listing is not a JSON object raises
    [AttributeError] right after the search request: no detail request, no
    upsert, no commit. *)
Theorem non_object_listing_aborts (depth : nat) (page : Z) (c x : string)
    (results : list json) (w : World) (p : Response) (rest : list Response)
    (m : list (string * json)) (first_job : json) (more : list json) :
  (1 <= depth)%nat -> sendable c x = true ->
  upstream w = p :: rest -> status p <> 403 ->
  body p = Some (JObj m) -> assoc "jvs" m = Some (JArr (first_job :: more)) ->
  (forall members, first_job <> JObj members) ->
  crawl_page depth page (c, x, results) w
  = Raises AttributeError (log (EvPost page c x) (set_upstream rest w)).
Proof.
  intros Hd Hv Hu Hs Hb Hj Hn. destruct depth as [|d]; [lia|].
  unfold crawl_page. unfold bind at 1.
  rewrite (make_api_request_plain _ _ _ _ _ p rest (JObj m)) by assumption.
  simpl get. rewrite Hj. unfold lift at 1. unfold bind at 1. unfold ret at 1.
  simpl iter. unfold lift at 1. unfold bind at 1. unfold ret at 1.
  simpl for_each. unfold bind at 1. unfold bind at 1.
  destruct first_job; try reflexivity. exfalso. eapply Hn. reflexivity.
Qed.

Lemma non_object_listing_aborts_witness :
  crawl_page 1 1 ("c", "x", [])
    (world [answer (JObj [("jvs", JArr [JStr "oops"])])] [] Missing Missing [] [] [])
  = Raises AttributeError
      (log (EvPost 1 "c" "x")
         (set_upstream []
            (world [answer (JObj [("jvs", JArr [JStr "oops"])])] [] Missing Missing [] [] []))).
Proof.
  apply (non_object_listing_aborts 1 1 "c" "x" []
           (world [answer (JObj [("jvs", JArr [JStr "oops"])])] [] Missing Missing [] [] [])
           (answer (JObj [("jvs", JArr [JStr "oops"])])) [] [("jvs", JArr [JStr "oops"])]
           (JStr "oops") []);
    first [reflexivity | apply le_n | simpl; discriminate | discriminate].
Defined.

Lemma nonpositive_total_pages (total : Z) : total <= 0 -> range_from_1 (total_pages total) = [].
Proof.
  intros H. unfold range_from_1, total_pages.
  assert (Hp : (total + 49) / 50 <= 0).
  { pose proof (Z.div_mod (total + 49) 50 ltac:(lia)).
    pose proof (Z.mod_pos_bound (total + 49) 50 ltac:(lia)). lia. }
  destruct ((total + 49) / 50) eqn:E; try reflexivity. lia.
Qed.

(** X13. A [numberRecords] that is zero or negative gives no page to crawl and
    an empty result; one that is not an integer (null, a string, a float, a
    list, a dict) raises [TypeError] after the first request. *)
Theorem nonpositive_or_non_integer_total (depth : nat) (c x : string) (w : World) (r : Response)
    (rest : list Response) (m : list (string * json)) (v : json) :
  (1 <= depth)%nat -> sendable c x = true ->
  upstream w = r :: rest -> status r <> 403 -> body r = Some (JObj m) ->
  assoc "numberRecords" m = Some v ->
  ((forall total, v = JInt total -> total <= 0 ->
      handle_pagination depth c x w = Returns [] (log (EvPost 1 c x) (set_upstream rest w)))
   /\ ((forall n, v <> JInt n) -> (forall b, v <> JBool b) ->
      handle_pagination depth c x w
      = Raises TypeError (log (EvPost 1 c x) (set_upstream rest w)))).
Proof.
  intros Hd Hv Hu Hs Hb Hk. destruct depth as [|d]; [lia|].
  split.
  - intros total -> Hle.
    unfold handle_pagination. unfold bind at 1.
    rewrite (make_api_request_plain _ _ _ _ _ r rest (JObj m)) by assumption.
    simpl get. rewrite Hk. unfold lift at 1. unfold bind at 1. unfold ret at 1.
    simpl as_int. unfold lift at 1. unfold bind at 1. unfold ret at 1.
    rewrite nonpositive_total_pages by exact Hle. reflexivity.
  - intros Hn Hbool.
    assert (E : as_int v = Err TypeError).
    { destruct v; try reflexivity; [exfalso; eapply Hbool | exfalso; eapply Hn]; reflexivity. }
    unfold handle_pagination. unfold bind at 1.
    rewrite (make_api_request_plain _ _ _ _ _ r rest (JObj m)) by assumption.
    simpl get. rewrite Hk. unfold lift at 1. unfold bind at 1. unfold ret at 1.
    rewrite E. reflexivity.
Qed.

Lemma nonpositive_or_non_integer_total_witness :
  handle_pagination 1 "c" "x"
    (world [answer (JObj [("numberRecords", JInt (-120))])] [] Missing Missing [] [] [])
  = Returns []
      (log (EvPost 1 "c" "x")
         (set_upstream []
            (world [answer (JObj [("numberRecords", JInt (-120))])] [] Missing Missing [] [] [])))
  /\ handle_pagination 1 "c" "x"
       (world [answer (JObj [("numberRecords", JStr "60")])] [] Missing Missing [] [] [])
     = Raises TypeError
         (log (EvPost 1 "c" "x")
            (set_upstream []
               (world [answer (JObj [("numberRecords", JStr "60")])] [] Missing Missing [] [] []))).
Proof.
  split.
  - refine (proj1 (nonpositive_or_non_integer_total 1 "c" "x"
              (world [answer (JObj [("numberRecords", JInt (-120))])] [] Missing Missing [] [] [])
              (answer (JObj [("numberRecords", JInt (-120))])) []
              [("numberRecords", JInt (-120))] (JInt (-120)) _ _ _ _ _ _) (-120) _ _);
      first [reflexivity | apply le_n | simpl; discriminate | lia].
  - refine (proj2 (nonpositive_or_non_integer_total 1 "c" "x"
              (world [answer (JObj [("numberRecords", JStr "60")])] [] Missing Missing [] [] [])
              (answer (JObj [("numberRecords", JStr "60")])) []
              [("numberRecords", JStr "60")] (JStr "60") _ _ _ _ _ _) _ _);
      first [reflexivity | apply le_n | simpl; discriminate | intros; discriminate].
Defined.

End Edges.

(* ===================================================================== *)
(** ** Loading and the entry point *)
(* ===================================================================== *)

Section MainAndLoad.

Lemma load_stored_cookie_some (w : World) (c : json) :
  load_stored_cookie w = Returns c w -> truthy c = true ->
  exists doc, cookie_file w = Holds doc /\ get doc "Cookie" JNull = Ok c.
Proof.
  unfold load_stored_cookie. destruct (cookie_file w) as [| |doc]; simpl.
  - intros H. injection H as <-. discriminate.
  - intros H. injection H as <-. discriminate.
  - destruct (get doc "Cookie" JNull) as [c0|e] eqn:Eg; simpl; intros H; injection H as <-.
    + intros _. exists doc. split; [reflexivity | exact Eg].
    + discriminate.
Qed.

Lemma load_xsrf_token_some (w : World) (t : string) :
  load_xsrf_token w = Returns (Some t) w ->
  exists text, xsrf_file w = Holds text /\ t = strip (universal_newlines text).
Proof.
  unfold load_xsrf_token. destruct (xsrf_file w) as [| |text]; simpl; try discriminate.
  intros H. injection H as <-. exists text. split; reflexivity.
Qed.

(** X14. A credential that [load] returns has a truthy cookie, read from the
    [Cookie] member of the cookie file, and a non-empty token with no
    surrounding whitespace: the text of the token file as text mode reads it
    (carriage returns as line feeds), stripped; loading changes nothing. *)
Theorem load_gives_usable_credential (w w' : World) (cookie : json) (token : string) :
  load w = Returns (Some (cookie, token)) w' ->
  w' = w /\ truthy cookie = true /\ token <> "" /\ strip token = token
  /\ exists doc text,
       cookie_file w = Holds doc /\ get doc "Cookie" JNull = Ok cookie
       /\ xsrf_file w = Holds text /\ token = strip (universal_newlines text).
Proof.
  unfold load, bind.
  destruct (load_stored_cookie_total w) as [c0 Hc]. rewrite Hc.
  destruct (load_xsrf_token_total w) as [[t|] Ht]; rewrite Ht; [|discriminate].
  destruct (truthy c0) eqn:Et; simpl; [|discriminate].
  destruct (String.eqb_spec t ""); simpl; [discriminate|].
  intros H. injection H as <- <- <-.
  destruct (load_stored_cookie_some w c0 Hc Et) as (doc & Hd & Hg).
  destruct (load_xsrf_token_some w t Ht) as (text & Hx & Hs).
  split; [reflexivity|]. split; [exact Et|]. split; [assumption|].
  split; [rewrite Hs; apply strip_idempotent|].
  exists doc, text. repeat split; assumption.
Qed.

Lemma load_gives_usable_credential_witness :
  world [] [] (Holds (JObj [("Cookie", JStr "s")])) (Holds (String "t" (String CR (String LF "")))) [] [] []
  = world [] [] (Holds (JObj [("Cookie", JStr "s")])) (Holds (String "t" (String CR (String LF "")))) [] [] []
  /\ truthy (JStr "s") = true /\ "t" <> "" /\ strip "t" = "t"
  /\ exists doc text,
       cookie_file (world [] [] (Holds (JObj [("Cookie", JStr "s")]))
                      (Holds (String "t" (String CR (String LF "")))) [] [] [])
       = Holds doc
       /\ get doc "Cookie" JNull = Ok (JStr "s")
       /\ xsrf_file (world [] [] (Holds (JObj [("Cookie", JStr "s")]))
                       (Holds (String "t" (String CR (String LF "")))) [] [] [])
          = Holds text
       /\ "t" = strip (universal_newlines text).
Proof.
  apply (load_gives_usable_credential
           (world [] [] (Holds (JObj [("Cookie", JStr "s")]))
              (Holds (String "t" (String CR (String LF "")))) [] [] [])
           (world [] [] (Holds (JObj [("Cookie", JStr "s")]))
              (Holds (String "t" (String CR (String LF "")))) [] [] [])
           (JStr "s") "t").
  reflexivity.
Defined.

(** X15. With a usable stored credential [main] starts the crawl with the
    stored cookie and the stripped stored token (the token file read in text
    mode), without launching the browser, and reports the number of listings
    crawled. *)
Theorem main_with_stored_credential (depth : nat) (w : World) (c t : string) :
  cookie_file w = Holds (JObj [("Cookie", JStr c)]) -> xsrf_file w = Holds t ->
  c <> "" -> strip (universal_newlines t) <> "" ->
  main depth w = report (handle_pagination depth c (strip (universal_newlines t)) w).
Proof.
  intros Hc Ht Hc' Ht'. unfold main. unfold bind at 1.
  rewrite (load_of_files c t w Hc Ht Hc' Ht'). unfold bind at 1. unfold ret at 1.
  unfold bind, report.
  destruct (handle_pagination depth c (strip (universal_newlines t)) w); reflexivity.
Qed.

Lemma main_with_stored_credential_witness :
  main 1 (world [answer (JObj [])] [] (Holds (JObj [("Cookie", JStr "s; XSRF-TOKEN=t")]))
            (Holds "t ") [] [] [])
  = report (handle_pagination 1 "s; XSRF-TOKEN=t" (strip (universal_newlines "t "))
              (world [answer (JObj [])] [] (Holds (JObj [("Cookie", JStr "s; XSRF-TOKEN=t")]))
                 (Holds "t ") [] [] [])).
Proof.
  apply (main_with_stored_credential 1
           (world [answer (JObj [])] [] (Holds (JObj [("Cookie", JStr "s; XSRF-TOKEN=t")]))
              (Holds "t ") [] [] []) "s; XSRF-TOKEN=t" "t ");
    first [reflexivity | discriminate].
Defined.

(** X16. Without a usable stored credential [main] first acquires one: on
    success it persists it and crawls with it, on failure it ends with the
    acquisition error before any request. *)
Theorem main_without_stored_credential (depth : nat) (w : World) (logs : list log_entry)
    (later : list (list log_entry)) :
  load w = Returns None w -> browser w = logs :: later ->
  main depth w
  = match extract_cookies_from_logs logs with
    | Ok (c', x') =>
        report (handle_pagination depth c' x' (persisted c' x' (set_browser later w)))
    | Err e => Raises e (log EvQuit (log (EvSleep 7) (log EvAcquire (set_browser later w))))
    end.
Proof.
  intros Hl Hb. unfold main. unfold bind at 1. rewrite Hl. unfold bind at 1.
  destruct (extract_cookies_from_logs logs) as [[c' x']|e] eqn:He.
  - rewrite (reload_cookie_ok w logs later c' x' Hb He).
    unfold bind, report. destruct (handle_pagination depth c' x' _); reflexivity.
  - rewrite (reload_cookie_fails w logs later e Hb He). reflexivity.
Qed.

Lemma main_without_stored_credential_witness :
  main 1 (world [answer (JObj [])] [good_log "abc123" "xyz789"] Missing Missing [] [] [])
  = match extract_cookies_from_logs (good_log "abc123" "xyz789") with
    | Ok (c', x') =>
        report (handle_pagination 1 c' x'
                  (persisted c' x'
                     (set_browser []
                        (world [answer (JObj [])] [good_log "abc123" "xyz789"]
                           Missing Missing [] [] []))))
    | Err e =>
        Raises e (log EvQuit (log (EvSleep 7) (log EvAcquire
                   (set_browser []
                      (world [answer (JObj [])] [good_log "abc123" "xyz789"]
                         Missing Missing [] [] [])))))
    end.
Proof.
  apply (main_without_stored_credential 1
           (world [answer (JObj [])] [good_log "abc123" "xyz789"] Missing Missing [] [] [])
           (good_log "abc123" "xyz789") []); reflexivity.
Defined.

End MainAndLoad.

(* ===================================================================== *)
(** ** Crawls of any length *)
(* ===================================================================== *)

Section WholeCrawl.

Lemma script_events_effects (eng : Engine) (c x : string) (pages : list page_script) :
  forall k, Forall well_served pages ->
    page_effects (script_events eng c x k pages) (List.length pages) (List.length pages)
      (script_jobs pages).
Proof.
  induction pages as [|[[p jobs] ds] pages IH]; intros k Hs; [repeat split|].
  inversion Hs as [|? ? (Hp & Hj & Hf & Ha & Hl) Hs']; subst. simpl in Hl.
  change (List.length ((p, jobs, ds) :: pages)) with (1 + List.length pages)%nat.
  change (script_jobs ((p, jobs, ds) :: pages)) with (jobs ++ script_jobs pages).
  change (script_events eng c x k ((p, jobs, ds) :: pages))
    with (page_events eng (Z.of_nat k) c x jobs ds ++ script_events eng c x (S k) pages).
  apply page_effects_app; [apply page_events_effects; exact Hl | apply IH; exact Hs'].
Qed.

Lemma pages_loop (depth : nat) (c x : string) (pages : list page_script) :
  forall (k : nat) (results : list json) (w : World) (rest : list Response),
  (1 <= depth)%nat -> sendable c x = true -> Forall well_served pages ->
  upstream w = script_responses pages ++ rest ->
  exists w',
    for_each (map Z.of_nat (seq k (List.length pages))) (crawl_page depth) (c, x, results) w
      = Returns (c, x, results ++ script_jobs pages) w'
    /\ trace w' = trace w ++ script_events (engine w) c x k pages
    /\ upstream w' = rest
    /\ engine w' = engine w
    /\ (pages <> [] -> durable w' = table w').
Proof.
  induction pages as [|[[p jobs] ds] pages IH]; intros k results w rest Hd Hv Hs Hu.
  - exists w. simpl. rewrite !app_nil_r. repeat split; try reflexivity; try assumption.
    congruence.
  - inversion Hs as [|? ? (Hp & Hj & Hf & Ha & Hl) Hs']; subst. simpl in Hp, Hj, Hf, Ha, Hl.
    assert (Hu1 : upstream w = p :: ds ++ (script_responses pages ++ rest)).
    { rewrite Hu. simpl. rewrite <- app_assoc. reflexivity. }
    destruct (crawl_page_ok depth (Z.of_nat k) c x results jobs w p ds
                (script_responses pages ++ rest) Hd Hv Hu1 Hp Hj Hf Ha Hl)
      as (w1 & Hr1 & Ht1 & Hup1 & He1 & Hd1).
    destruct (IH (S k) (results ++ jobs) w1 rest Hd Hv Hs' Hup1)
      as (w2 & Hr2 & Ht2 & Hup2 & He2 & Hdur).
    exists w2.
    split.
    { change (List.length ((p, jobs, ds) :: pages)) with (S (List.length pages)).
      simpl seq. simpl map. simpl for_each.
      rewrite (bind_returns _ _ _ _ _ Hr1). rewrite Hr2.
      simpl. rewrite <- app_assoc. reflexivity. }
    split.
    { rewrite Ht2, Ht1, He1.
      change (script_events (engine w) c x k ((p, jobs, ds) :: pages))
        with (page_events (engine w) (Z.of_nat k) c x jobs ds
                ++ script_events (engine w) c x (S k) pages).
      rewrite <- app_assoc. reflexivity. }
    split; [exact Hup2|].
    split; [rewrite He2; exact He1|].
    intros _. destruct pages as [|ps pages'].
    + simpl in Hr2. assert (Hw : w1 = w2) by (injection Hr2; auto). subst w2. exact Hd1.
    + apply Hdur. discriminate.
Qed.

(** X17. For any number of pages: when the total reported makes [n] pages and
    each is served without a 403 to a credential the HTTP library sends, the
    crawl sends [n + 1] search requests, one detail request and one upsert
    per listing in order, each upsert writing the listing's row, commits [n]
    times, returns all the listings, and ends with everything committed. *)
Theorem crawl_all_pages (depth : nat) (c x : string) (w : World) (total : Z)
    (probe : Response) (m0 : list (string * json)) (pages : list page_script)
    (rest : list Response) :
  (1 <= depth)%nat -> sendable c x = true ->
  upstream w = probe :: script_responses pages ++ rest ->
  status probe <> 403 -> body probe = Some (JObj m0) ->
  assoc "numberRecords" m0 = Some (JInt total) ->
  Z.of_nat (List.length pages) = total_pages total ->
  Forall well_served pages ->
  exists w' evs,
    handle_pagination depth c x w = Returns (script_jobs pages) w'
    /\ trace w' = trace w ++ evs
    /\ evs = EvPost 1 c x :: script_events (engine w) c x 1 pages
    /\ count is_post evs = S (List.length pages)
    /\ count is_commit evs = List.length pages
    /\ get_ids evs = map listing_id (script_jobs pages)
    /\ count is_upsert evs = List.length (script_jobs pages)
    /\ count is_acquire evs = 0%nat
    /\ upstream w' = rest
    /\ (pages <> [] -> durable w' = table w').
Proof.
  intros Hd Hv Hu Hs Hb Hn Hp Hw.
  destruct depth as [|d]; [lia|].
  unfold handle_pagination. unfold bind at 1.
  rewrite (make_api_request_plain _ _ _ _ _ probe (script_responses pages ++ rest) (JObj m0))
    by assumption.
  simpl get. rewrite Hn. unfold lift at 1. unfold bind at 1. unfold ret at 1.
  simpl as_int. unfold lift at 1. unfold bind at 1. unfold ret at 1.
  unfold range_from_1. rewrite <- Hp, Nat2Z.id.
  destruct (pages_loop (S d) c x pages 1 []
              (log (EvPost 1 c x) (set_upstream (script_responses pages ++ rest) w)) rest)
    as (w' & Hr & Ht & Hup & He & Hdur); try assumption; try reflexivity.
  rewrite (bind_returns _ _ _ _ _ Hr). unfold ret.
  exists w', ([EvPost 1 c x] ++ script_events (engine w) c x 1 pages).
  split; [reflexivity|].
  split; [rewrite Ht; simpl; rewrite <- app_assoc; reflexivity|].
  split; [reflexivity|].
  assert (He' : page_effects ([EvPost 1 c x] ++ script_events (engine w) c x 1 pages)
                  (1 + List.length pages) (0 + List.length pages) ([] ++ script_jobs pages)).
  { apply page_effects_app; [repeat split | apply script_events_effects; exact Hw]. }
  destruct He' as (E1 & E2 & E3 & E4 & E5 & E6).
  repeat split; assumption.
Qed.

Lemma crawl_all_pages_witness :
  exists w' evs,
    handle_pagination 1 "c" "x"
      (world [search_page 101 [];
                search_page 101 [listing "a" "A"]; answer JNull;
                search_page 101 []; 
                search_page 101 [listing "b" "B"]; mkResponse 404 None]
               [] Missing Missing [] [] [])
    = Returns (script_jobs [(search_page 101 [listing "a" "A"], [listing "a" "A"], [answer JNull]);
                            (search_page 101 [], [], []);
                            (search_page 101 [listing "b" "B"], [listing "b" "B"],
                             [mkResponse 404 None])]) w'
    /\ trace w' = [] ++ evs
    /\ evs = [EvPost 1 "c" "x";
              EvPost 1 "c" "x"; EvGet (JStr "a") "c" "x"; EvUpsert (row_of "a" "A" JNull);
              EvCommit; EvSleep 1;
              EvPost 2 "c" "x"; EvCommit; EvSleep 1;
              EvPost 3 "c" "x"; EvGet (JStr "b") "c" "x"; EvUpsert (row_of "b" "B" JNull);
              EvCommit; EvSleep 1]
    /\ count is_post evs = 4%nat
    /\ count is_commit evs = 3%nat
    /\ get_ids evs = [JStr "a"; JStr "b"]
    /\ count is_upsert evs = 2%nat
    /\ count is_acquire evs = 0%nat
    /\ upstream w' = []
    /\ durable w' = table w'.
Proof.
  destruct (crawl_all_pages 1 "c" "x"
      (world [search_page 101 [];
                search_page 101 [listing "a" "A"]; answer JNull;
                search_page 101 []; 
                search_page 101 [listing "b" "B"]; mkResponse 404 None]
               [] Missing Missing [] [] [])
      101 (search_page 101 []) [("numberRecords", JInt 101); ("jvs", JArr [])]
      [(search_page 101 [listing "a" "A"], [listing "a" "A"], [answer JNull]);
       (search_page 101 [], [], []);
       (search_page 101 [listing "b" "B"], [listing "b" "B"], [mkResponse 404 None])]
      []) as (w' & evs & H1 & H2 & H3 & H4 & H5 & H6 & H7 & H8 & H9 & H10);
    try reflexivity; try apply le_n; try (simpl; discriminate).
  - repeat constructor; simpl; try discriminate; try (intros; discriminate);
      try (eexists; split; reflexivity).
  - exists w', evs. repeat split; try assumption. apply H10. discriminate.
Defined.

End WholeCrawl.

(* ===================================================================== *)
(** ** The refreshed credential within a page *)
(* ===================================================================== *)

Section Propagation.

Lemma job_events_carried (eng : Engine) (c x : string) (jobs : list json) :
  forall ds, carried c x (job_events eng c x jobs ds).
Proof.
  induction jobs as [|job jobs IH]; intros ds; [constructor|].
  destruct ds as [|r ds]; [constructor|].
  simpl. constructor; [split; reflexivity|]. constructor; [exact I | apply IH].
Qed.

Lemma page_events_carried (eng : Engine) (page : Z) (c x : string) (jobs : list json)
    (ds : list Response) :
  carried c x (page_events eng page c x jobs ds).
Proof.
  unfold page_events. constructor; [split; reflexivity|].
  apply Forall_app. split; [apply job_events_carried | repeat constructor].
Qed.

(** X18. When the search request of a page is refused and the refresh
    succeeds, the credential acquired is the one carried by the second search
    request and by every detail request of that page, and the one handed on
    to the next page; no further acquisition takes place. Both credentials
    are ones the HTTP library sends. *)
Theorem search_refresh_reaches_the_page (depth : nat) (page : Z) (c x : string)
    (results jobs : list json) (w : World) (d0 p : Response) (ds rest : list Response)
    (logs : list log_entry) (later : list (list log_entry)) (c' x' : string) :
  (2 <= depth)%nat -> sendable c x = true -> sendable c' x' = true ->
  upstream w = d0 :: p :: ds ++ rest -> status d0 = 403 ->
  browser w = logs :: later -> extract_cookies_from_logs logs = Ok (c', x') ->
  serves p jobs -> Forall (fun job => storable job = true) jobs ->
  Forall (fun job => fetchable job = true) jobs -> Forall answered ds ->
  List.length ds = List.length jobs ->
  exists w' evs,
    crawl_page depth page (c, x, results) w = Returns (c', x', results ++ jobs) w'
    /\ trace w' = trace w ++ EvPost page c x :: refresh_events c' x' ++ evs
    /\ evs = page_events (engine w) page c' x' jobs ds
    /\ carried c' x' evs
    /\ count is_post evs = 1%nat
    /\ count is_get evs = List.length jobs
    /\ count is_acquire evs = 0%nat
    /\ upstream w' = rest.
Proof.
  intros Hd Hv Hv' Hu H0 Hb He (Hs & m & Hbody & Hit) Hj Hf Ha Hlen.
  destruct depth as [|[|d]]; try lia.
  unfold crawl_page. unfold bind at 1.
  rewrite (make_api_request_denied _ _ _ _ _ d0 (p :: ds ++ rest) logs later c' x')
    by assumption.
  rewrite (make_api_request_plain _ _ _ _ _ p (ds ++ rest) (JObj m))
    by (try assumption; reflexivity).
  simpl get. unfold lift at 1. unfold bind at 1. unfold ret at 1.
  rewrite Hit. unfold lift at 1. unfold bind at 1. unfold ret at 1.
  destruct (jobs_loop (S (S d)) c' x' jobs ds rest
              (log (EvPost page c' x')
                 (set_upstream (ds ++ rest)
                    (persisted c' x' (set_browser later
                       (log (EvPost page c x) (set_upstream (p :: ds ++ rest) w)))))))
    as (w1 & Hr & Ht & Hu1 & He1 & Hdu); try assumption; try reflexivity; try lia.
  rewrite (bind_returns _ _ _ _ _ Hr).
  exists (log (EvSleep 1) (log EvCommit (set_durable (table w1) w1))),
         (page_events (engine w) page c' x' jobs ds).
  split; [reflexivity|]. split.
  { cbn [trace log set_durable]. rewrite Ht.
    cbn [trace log set_upstream engine]. rewrite trace_persisted.
    cbn [trace log set_upstream set_browser engine persisted set_xsrf_file set_cookie_file].
    unfold refresh_events, page_events.
    rewrite <- !app_assoc. reflexivity. }
  split; [reflexivity|].
  split; [apply page_events_carried|].
  destruct (page_events_effects (engine w) page c' x' jobs ds Hlen)
    as (E1 & E2 & E3 & E4 & E5 & E6).
  repeat split; assumption.
Qed.

Lemma search_refresh_reaches_the_page_witness :
  exists w' evs,
    crawl_page 2 1 ("stale", "old", [])
      (world [denied; search_page 2 [listing "a" "A"; listing "b" "B"];
                answer (JStr "da"); answer (JStr "db")]
               [good_log "s1" "t1"] Missing Missing [] [] [])
    = Returns ("EURES_JVSE_SESSIONID=s1", "t1", [] ++ [listing "a" "A"; listing "b" "B"]) w'
    /\ trace w' = [] ++ EvPost 1 "stale" "old"
                      :: refresh_events "EURES_JVSE_SESSIONID=s1" "t1" ++ evs
    /\ evs = page_events plain_engine 1 "EURES_JVSE_SESSIONID=s1" "t1"
               [listing "a" "A"; listing "b" "B"] [answer (JStr "da"); answer (JStr "db")]
    /\ carried "EURES_JVSE_SESSIONID=s1" "t1" evs
    /\ count is_post evs = 1%nat
    /\ count is_get evs = 2%nat
    /\ count is_acquire evs = 0%nat
    /\ upstream w' = [].
Proof.
  apply (search_refresh_reaches_the_page 2 1 "stale" "old" []
           [listing "a" "A"; listing "b" "B"]
           (world [denied; search_page 2 [listing "a" "A"; listing "b" "B"];
                     answer (JStr "da"); answer (JStr "db")]
                    [good_log "s1" "t1"] Missing Missing [] [] [])
           denied (search_page 2 [listing "a" "A"; listing "b" "B"])
           [answer (JStr "da"); answer (JStr "db")] []
           (good_log "s1" "t1") [] "EURES_JVSE_SESSIONID=s1" "t1");
    repeat match goal with
           | |- Forall _ _ => constructor
           | |- answered _ => split
           | |- serves _ _ => split; [| eexists; split; reflexivity]
           | |- _ <> _ => simpl; discriminate
           | |- (2 <= 2)%nat => apply le_n
           | |- _ = _ => reflexivity
           | |- _ -> _ => simpl; intros; discriminate
           end.
Defined.

End Propagation.
